(* ===== verification/_CoqProject ===== *)
-Q . S2P
Prelude.v
RustStd.v
GapBuffer.v
Editing.v
Motion.v
Reach.v
Editor.v
Interface.v
Refinement.v
Tests.v
Witnesses.v
