(* ===== verification/Prelude.v ===== *)
(** * A verification development for the [gap_buffer] crate

    The crate ([src/src/lib.rs]) is one data structure, [GapBuffer], an
    editable text buffer for an editor.  Its state is four fields:
    [document : VecDeque<char>] (the committed text), [typing_buf :
    VecDeque<char>] (a "typing window" of pending edits), and two [usize]
    indices [typing_buf_start <= typing_buf_end] into [document] that bound
    the region of [document] the window replaces.  The text the buffer
    stands for is
      [document[0..typing_buf_start) ++ typing_buf ++ document[typing_buf_end..)]
    and the cursor is [typing_buf_start + typing_buf.len()].  Its public
    operations are [move_cursor_to], [move_cursor], [insert_at_cursor],
    [delete], [flush_typing_buf], [len], [is_empty] and the two [From]
    conversions [String -> GapBuffer] and [GapBuffer -> String] (the latter
    through [make_into_string_by_consuming]).  There is no other
    component: the client is an editor's input layer, which calls these
    methods in sequence.

    ** Files, in dependency order

    - [Prelude] (this file): the panic monad used for every Rust operation
      that can abort ([Panic], [let? x := m in k] in [gb_scope]); the Rust
      integer model ([usize]/[isize] bounds, the [as] casts, checked and
      debug-mode arithmetic, which panics on overflow as [cargo test]
      builds do); [fits], the length a live [VecDeque<char>] can have; the
      hint databases [gb] and [gb_rw], the tactic [gb_arith] and shared
      list lemmas.
    - [RustStd]: the parts of Rust's standard library the crate calls,
      modelled on lists: [VecDeque] ([get], [push_front], [push_back],
      [pop_front], [pop_back], [IndexMut] assignment [set], which panics
      out of range, [range]/[range_from], which panic on a bad range), and
      [String] as its sequence of Unicode scalar values with [String::len]
      the UTF-8 byte length ([string_len]).
    - [GapBuffer] ([Module GapBuffer]): the struct as a [Record], the two
      [From] impls, [make_into_string_by_consuming]; the view of a state
      ([text], [cursor], [wf], [closed_at]); the conversion theorems.
    - [Editing] ([Module Editing]): [insert_at_cursor], [delete] (the loop
      [delete_loop] with its early [return], the backward step
      [delete_back_step]), [flush_typing_buf], [len], [is_empty], their
      behaviour on the view, and their departures from the spec.
    - [Motion] ([Module Motion]): [move_cursor_to], [move_cursor], its loop
      [move_cursor_loop] and the two loop bodies [move_left_step] and
      [move_right_step]; right moves inside the document ([shifted]),
      moves of a closed window in both directions, when a left step
      panics, that right moves always return, and the departures from
      the spec.
    - [Reach] ([Module Reach]): the crate as a state machine.  A [Call] is
      one call of a [&mut self] method, [step] (parameterised by which
      calls the client makes) a call that returns, [reachable s] the
      states reached from [GapBuffer::from(s)]; [guard] is the condition
      under which a call keeps the buffer well-formed.  The invariant is
      proved by rule induction ([reachable_ind]) from one preservation
      lemma per method.
    - [Editor] ([Module Editor]): the abstract specification of spec
      section 4, a text and a cursor with clamped moves, insertion and
      deletion around the cursor.
    - [Interface]: the class [EditBuffer] (the public API over any
      representation), the class [EditBufferLaws] (what a representation
      promises through a relation to [Editor]) and a client,
      [Session], whose theorem is proved against the interface only.
    - [Refinement]: the relation [refines], the [EditBuffer] instance of
      [GapBuffer] and [gap_buffer_laws], which discharges the laws from the
      lemmas of [Editing] and [Motion]; the session theorem for the crate;
      the refinement of [move_cursor_to] on a closed window.
    - [Tests] ([Module Tests]): the eight test functions of [mod sweet],
      each a computation of the panic monad ([assert_eq!] and [unwrap]
      panic), replayed to check the model against the crate: seven
      return, [scroll_past_start] panics, as on the crate.
    - [Witnesses]: every theorem with hypotheses applied at a concrete
      input.

    ** Correspondence of state and operations

    A [GapBuffer.GapBuffer] value is the Rust struct; a method [&mut self]
    is a function [GapBuffer -> Panic GapBuffer] (a pure function when the
    method cannot panic); [None] is a panic (index out of bounds,
    [VecDeque::range] out of bounds, arithmetic overflow in a debug build,
    [expect]).  Indices are [nat]; each arithmetic operation on them is the
    Rust one: [saturating_sub] is truncated subtraction,
    [checked_add(..).expect(..)] and [+=] are [usize_add],
    [saturating_add] is [usize_saturating_add], [i as isize] is
    [usize_as_isize], [n.abs()] is [isize_abs] (which panics at
    [isize::MIN]).  The argument of [move_cursor_to] is an [N]; those of
    [move_cursor] and [delete] are [Z]s.

    ** What the theorems show

    - Conversions ([GapBuffer]): the round trip [String -> GapBuffer ->
      String] is the identity on ASCII strings and panics on every string
      with a non-ASCII character ([From<String>] stores a byte length as a
      character index).
    - Operations ([Editing], [Motion]): on every well-formed state,
      insertion inserts at the cursor, backward deletion removes the
      characters before the cursor (pending ones first), forward deletion
      inside the document removes those after it, right moves inside the
      document keep the text, [flush_typing_buf] commits the text, [len]
      is the length of the converted string without overflow; with nothing
      pending, [move_cursor] and [move_cursor_to] clamp and keep the text.
    - Refinement ([Interface], [Refinement]): the gap buffer satisfies the
      laws of [EditBufferLaws]; hence every session of typing,
      backspacing, forward deletion and rightward moves refines the
      abstract editor, proved once against the interface and instantiated
      for the crate.
    - Reachable states ([Reach]): calls within their guards keep every
      state reached from an ASCII string well-formed, so the conversion
      and [len()] never panic; the defect theorems show that each guard
      is needed.
    - Termination, panics and equivalence ([Editing], [Motion]):
      [delete] and right moves run their loops to the end and return on
      every state whose indices leave room in [usize]; a left step on a
      well-formed state panics exactly when it writes one past the end of
      the document; [flush_typing_buf] commits exactly the string the
      conversion returns, and panics exactly when it does.
    - Departures from the spec (last sections of [Editing] and [Motion]),
      each stated for every input of its shape: moving left from index 0
      duplicates the first character (the repository test
      [scroll_past_start] fails, as [Tests] replays), moving left over
      typed text reorders it or panics, moving right past the end after
      typing duplicates a character, moving right after deleting to the
      end brings a deleted character back, forward deletion at the end
      makes every later conversion panic, flush moves the cursor to the
      old window end and, after a deletion to the end, leaves the indices
      past the document exactly when the cursor was before its old end,
      [is_empty] and [len() == 0] disagree exactly on a fully deleted
      document, and [move_cursor_to] beyond [isize::MAX] wraps and
      doubles the first character [2^64 - i] times.

    ** Bounds and fuel

    No fuel is used: every loop of the crate is a [for] over
    [0..n.abs()], modelled by structural recursion on the count, so every
    operation is total and its theorems state that it returns.  The
    integer model is 64-bit ([usize::MAX = 2^64 - 1]).  Theorems that need
    an addition not to overflow assume [fits] of the deques' lengths
    ([4 * len <= isize::MAX]): Rust never allocates more than
    [isize::MAX] bytes and a [char] takes 4, so every live deque fits, and
    then no index arithmetic of the crate overflows.  In [Reach] the same
    bound is part of each call's guard: the two deques, with what the call
    may add to them ([Reach.growth]: the typed string, one character per
    left step), still fit.

    ** Not modelled, and the plan for later work

    Not modelled: allocation failure ("capacity overflow" of [VecDeque]),
    the [Debug], [Default] and [Clone] derives (no behaviour of the crate's
    own), release-mode wrapping arithmetic (the model is the debug build).
    Planned next: the characterisation of which left moves over typed
    text keep the text (they do when the characters they overwrite happen
    to be equal, so the condition is on the contents, not only on the
    indices), and a session theorem with flushes, against an abstract
    editor whose flush moves the cursor to the old window end, as
    [Editing.flush_typing_buf_spec] shows the code does. *)

From stdpp Require Import base list.
From Stdlib Require Import ZArith Lia.

Declare Scope gb_scope.
Delimit Scope gb_scope with gb.
Open Scope gb_scope.

(** ** The panic monad *)

(** A Rust computation that may panic.  [None] is a panic; the model does
    not distinguish panic messages. *)
Definition Panic (A : Type) : Type := option A.
Definition ok {A} (a : A) : Panic A := Some a.
Definition panic {A} : Panic A := None.

Notation "'let?' x ':=' m 'in' k" :=
  (match m with Some x => k | None => None end)
  (at level 10, x name, m at level 100, k at level 200)
  : gb_scope.

Notation "'let?' ' p ':=' m 'in' k" :=
  (match m with Some p => k | None => None end)
  (at level 10, p pattern, m at level 100, k at level 200)
  : gb_scope.

(** ** Rust machine integers (64-bit target, debug build) *)

Definition usize_max : Z := 2 ^ 64 - 1.
Definition isize_min : Z := - 2 ^ 63.
Definition isize_max : Z := 2 ^ 63 - 1.

(** [a + b] and [a.checked_add(b).expect(..)] on [usize]: both panic on
    overflow in a debug build. *)
Definition usize_add (a b : nat) : Panic nat :=
  if (Z.of_nat a + Z.of_nat b <=? usize_max)%Z then ok (a + b) else panic.

(** [a - b] on [usize] in a debug build. *)
Definition usize_sub (a b : nat) : Panic nat :=
  if b <=? a then ok (a - b) else panic.

(** [a.saturating_add(b)] on [usize]. *)
Definition usize_saturating_add (a b : nat) : nat :=
  if (Z.of_nat a + Z.of_nat b <=? usize_max)%Z then a + b
  else Z.to_nat usize_max.

(** [a as isize] for [a : usize] (given as its value in [Z]):
    reinterpretation of the 64 bits. *)
Definition usize_as_isize (a : Z) : Z :=
  if (a <=? isize_max)%Z then a else (a - 2 ^ 64)%Z.

(** [a - b] on [isize] in a debug build. *)
Definition isize_sub (a b : Z) : Panic Z :=
  if (isize_min <=? a - b)%Z && (a - b <=? isize_max)%Z then ok (a - b)%Z
  else panic.

(** [n.abs()] on [isize] in a debug build: [isize::MIN.abs()] overflows. *)
Definition isize_abs (n : Z) : Panic Z :=
  if (n =? isize_min)%Z then panic else ok (Z.abs n).

(** A [usize] value, as the type of a function argument guarantees it. *)
Definition in_usize (a : nat) : Prop := (Z.of_nat a <= usize_max)%Z.
Definition in_isize (n : Z) : Prop := (isize_min <= n <= isize_max)%Z.

(** A length a live [VecDeque<char>] can have: Rust never allocates more
    than [isize::MAX] bytes, and a [char] takes 4 bytes. *)
Definition fits (n : nat) : Prop := (4 * Z.of_nat n <= isize_max)%Z.

(** ** Automation *)

Create HintDb gb discriminated.
Create Rewrite HintDb gb_rw.

(** Unfold the monad and close arithmetic side conditions. *)
Ltac gb_arith :=
  unfold fits, in_usize, in_isize in *; unfold usize_max, isize_min, isize_max in *; lia.

(** ** Integer lemmas *)

Lemma usize_add_ok a b :
  (Z.of_nat a + Z.of_nat b <= usize_max)%Z -> usize_add a b = ok (a + b).
Proof. intros H. unfold usize_add. by rewrite (proj2 (Z.leb_le _ _) H). Qed.

Lemma usize_add_overflow a b :
  (usize_max < Z.of_nat a + Z.of_nat b)%Z -> usize_add a b = panic.
Proof. intros H. unfold usize_add.
  destruct (Z.leb_spec (Z.of_nat a + Z.of_nat b) usize_max); [lia | done]. Qed.

Lemma usize_sub_ok a b : b <= a -> usize_sub a b = ok (a - b).
Proof. intros H. unfold usize_sub. by rewrite (proj2 (Nat.leb_le _ _) H). Qed.

Lemma usize_saturating_add_ok a b :
  (Z.of_nat a + Z.of_nat b <= usize_max)%Z -> usize_saturating_add a b = a + b.
Proof. intros H. unfold usize_saturating_add. by rewrite (proj2 (Z.leb_le _ _) H). Qed.

(** Saturation is invisible under a [min] with a [usize] value. *)
Lemma usize_saturating_add_min a b n :
  fits n -> Nat.min (usize_saturating_add a b) n = Nat.min (a + b) n.
Proof.
  unfold fits, usize_saturating_add. intros Hn.
  destruct (Z.leb_spec (Z.of_nat a + Z.of_nat b) usize_max); [done |].
  unfold usize_max, isize_max in *. lia.
Qed.

Lemma usize_as_isize_small a :
  (a <= isize_max)%Z -> usize_as_isize a = a.
Proof. intros H. unfold usize_as_isize. by rewrite (proj2 (Z.leb_le _ _) H). Qed.

(** A [usize] above [isize::MAX] becomes negative. *)
Lemma usize_as_isize_large a :
  (isize_max < a)%Z -> usize_as_isize a = (a - 2 ^ 64)%Z.
Proof.
  intros H. unfold usize_as_isize.
  destruct (Z.leb_spec a isize_max); [lia | done].
Qed.

Lemma isize_sub_ok a b :
  in_isize (a - b)%Z -> isize_sub a b = ok (a - b)%Z.
Proof.
  intros [H1 H2]. unfold isize_sub.
  by rewrite (proj2 (Z.leb_le _ _) H1), (proj2 (Z.leb_le _ _) H2).
Qed.

Lemma isize_abs_ok n : n <> isize_min -> isize_abs n = ok (Z.abs n).
Proof. intros H. unfold isize_abs. by rewrite (proj2 (Z.eqb_neq _ _) H). Qed.

Lemma isize_abs_min : isize_abs isize_min = panic.
Proof. reflexivity. Qed.

#[export] Hint Rewrite usize_sub_ok using lia : gb_rw.

(** ** List lemmas shared by the components *)

Section Lists.
Context {A : Type}.
Implicit Types l k : list A.

(** Splitting a list at [i] and at [j >= i]: the three pieces. *)
Lemma take_drop_split l i j :
  i <= j -> take j l = take i l ++ take (j - i) (drop i l).
Proof.
  intros H. rewrite take_take_drop. f_equal. lia.
Qed.

(** One more element at the end of a prefix. *)
Lemma take_S_lookup l i x :
  l !! i = Some x -> take (S i) l = take i l ++ [x].
Proof. apply take_S_r. Qed.

Lemma drop_lookup_cons l i x :
  l !! i = Some x -> drop i l = x :: drop (S i) l.
Proof.
  intros H. rewrite <- (take_drop_middle l i x H) at 1.
  rewrite drop_app_length'; [done |]. rewrite length_take.
  apply lookup_lt_Some in H. lia.
Qed.

(** Writing [x] at index [i] and keeping the first [i + 1] elements. *)
Lemma take_S_insert l i x :
  i < length l -> take (S i) (<[i:=x]> l) = take i l ++ [x].
Proof.
  intros H. rewrite insert_take_drop by done.
  rewrite take_app_ge; rewrite length_take; [| lia].
  by replace (S i - i `min` length l) with 1 by lia.
Qed.

Lemma lookup_lt_Some_ex l i : i < length l -> exists x, l !! i = Some x.
Proof. intros H. by destruct (lookup_lt_is_Some_2 l i H) as [x Hx]; exists x. Qed.
End Lists.

#[export] Hint Resolve take_S_lookup drop_lookup_cons : gb.
