(* ===== verification/RustStd.v ===== *)
(** * The parts of Rust's standard library that [src/src/lib.rs] calls

    [VecDeque<T>] is modelled by the list of its elements from front to
    back, with each method the crate uses (its panics included), and
    [String] by its sequence of [char]s (Unicode scalar values, as [Z]
    code points) together with [String::len], which counts UTF-8 bytes.
    These are models of the standard library's documented behaviour,
    not of code of the crate. *)

From stdpp Require Import base list.
From Stdlib Require Import ZArith Lia.
From Stdlib Require Strings.String Strings.Ascii.
From S2P Require Import Prelude.

Open Scope gb_scope.

Module VecDeque.
Section Ops.
Context {T : Type}.
Implicit Types d : list T.

(** [d.get(i)]. *)
Definition get d (i : nat) : option T := d !! i.

Definition push_front (x : T) d : list T := x :: d.
Definition push_back (x : T) d : list T := d ++ [x].

(** [d.pop_front()] and [d.pop_back()], with the deque after the call. *)
Definition pop_front d : option T * list T :=
  match d with [] => (None, []) | x :: r => (Some x, r) end.
Definition pop_back d : option T * list T :=
  match reverse d with [] => (None, []) | x :: r => (Some x, reverse r) end.

(** [d[i] = x]: [IndexMut] panics when [i >= d.len()]. *)
Definition set d (i : nat) (x : T) : Panic (list T) :=
  if i <? length d then ok (<[i:=x]> d) else panic.

(** [d.range(a..b)] and [d.range(a..)]: panic when the start is past the
    end or the end past the length. *)
Definition range d (a b : nat) : Panic (list T) :=
  if (a <=? b) && (b <=? length d) then ok (take (b - a) (drop a d)) else panic.
Definition range_from d (a : nat) : Panic (list T) :=
  if a <=? length d then ok (drop a d) else panic.

Definition is_empty d : bool := match d with [] => true | _ => false end.

(** ** Lemmas *)

Lemma pop_back_snoc d x : pop_back (d ++ [x]) = (Some x, d).
Proof. unfold pop_back. by rewrite reverse_snoc, reverse_involutive. Qed.

Lemma pop_back_nil : pop_back [] = (None, []).
Proof. reflexivity. Qed.

(** Every non-empty deque ends with its last element. *)
Lemma snoc_cases d : d = [] \/ exists d' x, d = d' ++ [x].
Proof.
  destruct (decide (d = [])) as [-> | Hne]; [by left | right].
  destruct (exists_last Hne) as [d' [x ->]]. eauto.
Qed.

Lemma set_ok d i x : i < length d -> set d i x = ok (<[i:=x]> d).
Proof. intros H. unfold set. by rewrite (proj2 (Nat.ltb_lt _ _) H). Qed.

Lemma set_oob d i x : length d <= i -> set d i x = panic.
Proof. intros H. unfold set. destruct (Nat.ltb_spec i (length d)); [lia | done]. Qed.

Lemma range_prefix d a : a <= length d -> range d 0 a = ok (take a d).
Proof.
  intros H. unfold range. rewrite (proj2 (Nat.leb_le _ _) H).
  simpl. by rewrite Nat.sub_0_r.
Qed.

Lemma range_prefix_oob d a : length d < a -> range d 0 a = panic.
Proof.
  intros H. unfold range. destruct (Nat.leb_spec a (length d)); [lia |].
  by rewrite andb_false_r.
Qed.

Lemma range_from_ok d a : a <= length d -> range_from d a = ok (drop a d).
Proof. intros H. unfold range_from. by rewrite (proj2 (Nat.leb_le _ _) H). Qed.

Lemma range_from_oob d a : length d < a -> range_from d a = panic.
Proof. intros H. unfold range_from. destruct (Nat.leb_spec a (length d)); [lia | done]. Qed.

Lemma is_empty_true d : is_empty d = true <-> d = [].
Proof. destruct d; naive_solver. Qed.

Lemma is_empty_false d : 0 < length d -> is_empty d = false.
Proof. destruct d; simpl; [lia | done]. Qed.

(** What a call that returned tells of the deque before it. *)
Lemma pop_back_Some d x d' : pop_back d = (Some x, d') -> d = d' ++ [x].
Proof.
  destruct (snoc_cases d) as [-> | (d0 & y & ->)]; [done |].
  rewrite pop_back_snoc. by intros [= -> ->].
Qed.

Lemma pop_back_None d d' : pop_back d = (None, d') -> d = [] /\ d' = [].
Proof.
  destruct (snoc_cases d) as [-> | (d0 & y & ->)]; [by intros [= <-] |].
  by rewrite pop_back_snoc.
Qed.

Lemma pop_front_Some d x d' : pop_front d = (Some x, d') -> d = x :: d'.
Proof. destruct d; simpl; [done | by intros [= -> ->]]. Qed.

Lemma pop_front_None d d' : pop_front d = (None, d') -> d = [] /\ d' = [].
Proof. destruct d; simpl; [by intros [= <-] | done]. Qed.

Lemma set_inv d i x d' : set d i x = ok d' -> i < length d /\ d' = <[i:=x]> d.
Proof. unfold set. destruct (Nat.ltb_spec i (length d)); [by intros [= <-] | done]. Qed.
End Ops.
End VecDeque.

#[export] Hint Rewrite @VecDeque.pop_back_snoc @VecDeque.set_ok
  @VecDeque.range_prefix @VecDeque.range_from_ok using lia : gb_rw.

(** ** [char] and [String] *)

(** A Rust [char]: a Unicode scalar value, as its code point. *)
Definition char : Type := Z.

(** A Rust [String]: its characters, in order ([s.chars()]). *)
Definition RString : Type := list char.

(** Number of bytes of the UTF-8 encoding of one [char]. *)
Definition utf8_len (c : char) : nat :=
  if (c <? 128)%Z then 1
  else if (c <? 2048)%Z then 2
  else if (c <? 65536)%Z then 3
  else 4.

(** [String::len]: the length in bytes, not in characters. *)
Definition string_len (s : RString) : nat := sum_list_with utf8_len s.

Definition is_ascii (c : char) : bool := (c <? 128)%Z.

(** A Rust string literal made of ASCII characters. *)
Definition lit (s : String.string) : RString :=
  map (fun a => Z.of_nat (Ascii.nat_of_ascii a)) (String.list_ascii_of_string s).
Arguments lit s%_string_scope.

Lemma utf8_len_ascii c : is_ascii c = true -> utf8_len c = 1.
Proof. unfold is_ascii, utf8_len. by intros ->. Qed.

Lemma utf8_len_non_ascii c : is_ascii c = false -> 2 <= utf8_len c.
Proof.
  unfold is_ascii, utf8_len. intros ->.
  repeat case_match; lia.
Qed.

Lemma utf8_len_pos c : 1 <= utf8_len c.
Proof. unfold utf8_len. repeat case_match; lia. Qed.

(** A string has at least as many bytes as characters ... *)
Lemma string_len_ge (s : RString) : length s <= string_len s.
Proof.
  unfold string_len. induction s as [| c s IH]; simpl; [lia |].
  pose proof (utf8_len_pos c). lia.
Qed.

(** ... exactly as many when it is ASCII ... *)
Lemma string_len_ascii (s : RString) :
  Forall (fun c => is_ascii c = true) s -> string_len s = length s.
Proof.
  unfold string_len. induction 1 as [| c s Hc _ IH]; simpl; [done |].
  rewrite utf8_len_ascii by done. lia.
Qed.

(** ... and strictly more as soon as one character is not. *)
Lemma string_len_non_ascii (s : RString) c :
  c ∈ s -> is_ascii c = false -> length s < string_len s.
Proof.
  induction s as [| c' s IH]; intros Hin Hc; [by apply not_elem_of_nil in Hin |].
  simpl. pose proof (string_len_ge s). pose proof (utf8_len_pos c').
  apply elem_of_cons in Hin as [<- | Hin].
  - pose proof (utf8_len_non_ascii c Hc). unfold string_len in *. lia.
  - specialize (IH Hin Hc). unfold string_len in *. lia.
Qed.

(** The executable check that a string is ASCII. *)
Lemma forallb_ascii (s : RString) :
  forallb is_ascii s = true -> Forall (fun c => is_ascii c = true) s.
Proof.
  induction s as [| c s IH]; simpl; [constructor |].
  rewrite andb_true_iff. intros [Hc Hs]. constructor; [done | by apply IH].
Qed.

#[export] Hint Resolve string_len_ge string_len_ascii : gb.

(** ** What the unit tests call *)

(** A [char] literal ['c'] made of an ASCII character. *)
Definition chr (a : Ascii.ascii) : char := Z.of_nat (Ascii.nat_of_ascii a).

(** [s.strip_suffix(c)] with a [char] pattern: [s] without its last
    character when that character is [c]. *)
Definition strip_suffix (s : RString) (c : char) : option RString :=
  match reverse s with
  | x :: r => if (x =? c)%Z then Some (reverse r) else None
  | [] => None
  end.

(** [o.unwrap()]: panics on [None]. *)
Definition unwrap {A} (o : option A) : Panic A :=
  match o with Some a => ok a | None => panic end.

(** [assert_eq!(a, b)] on two strings: panics when they differ. *)
Definition assert_eq (a b : RString) : Panic unit :=
  if decide (a = b) then ok tt else panic.

