(* ===== verification/GapBuffer.v ===== *)
(** * [GapBuffer]: the model of [src/src/lib.rs]

    [Module GapBuffer] translates the struct [GapBuffer], the two [From]
    impls and [make_into_string_by_consuming], over the standard-library
    models of [RustStd] and the integer model of [Prelude]; the other
    methods are in [Editing] and [Motion].  It defines the view of a state
    a reader of the crate has in mind ([text]: the logical document;
    [cursor]), the well-formedness condition [wf] under which that view is
    meaningful, and the states with nothing pending ([closed_at]), and
    proves the conversion theorems: the round trip on ASCII strings and its
    panic on any other string. *)

From stdpp Require Import base list.
From Stdlib Require Import ZArith Lia.
From S2P Require Import Prelude RustStd.

Open Scope gb_scope.

Module GapBuffer.

(** ** State *)

Record GapBuffer := mkGapBuffer {
  document : list char;
  typing_buf : list char;
  typing_buf_start : nat;
  typing_buf_end : nat;
}.

(** ** Methods *)

Definition make_into_string_by_consuming (self : GapBuffer) : Panic RString :=
  let? pre := VecDeque.range (document self) 0 (typing_buf_start self) in
  let? post := VecDeque.range_from (document self) (typing_buf_end self) in
  ok (pre ++ typing_buf self ++ post).

(** [impl From<String> for GapBuffer]: both indices are [s.len()], the
    length of [s] in bytes. *)
Definition from_string (s : RString) : GapBuffer :=
  mkGapBuffer s [] (string_len s) (string_len s).

(** [impl From<GapBuffer> for String]. *)
Definition into_string (rs : GapBuffer) : Panic RString :=
  make_into_string_by_consuming rs.

(** ** The view of a state *)

(** The logical document and the cursor. *)
Definition text (self : GapBuffer) : list char :=
  take (typing_buf_start self) (document self) ++ typing_buf self
    ++ drop (typing_buf_end self) (document self).

Definition cursor (self : GapBuffer) : nat :=
  typing_buf_start self + length (typing_buf self).

(** The states in which [typing_buf_start <= typing_buf_end <= document.len()]. *)
Definition wf (self : GapBuffer) : Prop :=
  typing_buf_start self <= typing_buf_end self <= length (document self).

(** A buffer whose window is closed at [c]: nothing pending, and the
    window covers no character of the document. *)
Definition closed_at (doc : list char) (c : nat) : GapBuffer :=
  mkGapBuffer doc [] c c.

(** The number of [char]s the two deques hold: what a state allocates. *)
Definition size (self : GapBuffer) : nat :=
  length (document self) + length (typing_buf self).

#[export] Instance wf_dec self : Decision (wf self).
Proof. unfold wf. apply _. Defined.

(** The text splits at the cursor into the kept prefix of the document
    with the window, and the document after the window. *)
Lemma text_at_cursor self :
  typing_buf_start self <= length (document self) ->
  text self = (take (typing_buf_start self) (document self) ++ typing_buf self)
                ++ drop (typing_buf_end self) (document self) /\
  length (take (typing_buf_start self) (document self) ++ typing_buf self) = cursor self.
Proof.
  intros Hs. unfold text, cursor. rewrite <- app_assoc.
  split; [done |]. rewrite length_app, length_take. lia.
Qed.

Lemma take_cursor_text self :
  typing_buf_start self <= length (document self) ->
  take (cursor self) (text self) =
    take (typing_buf_start self) (document self) ++ typing_buf self.
Proof.
  intros Hs. destruct (text_at_cursor self Hs) as [-> Hl].
  by apply take_app_length'.
Qed.

Lemma drop_cursor_text self :
  typing_buf_start self <= length (document self) ->
  drop (cursor self) (text self) = drop (typing_buf_end self) (document self).
Proof.
  intros Hs. destruct (text_at_cursor self Hs) as [-> Hl].
  by apply drop_app_length'.
Qed.

Lemma length_text self :
  typing_buf_start self <= length (document self) ->
  length (text self) =
    cursor self + (length (document self) - typing_buf_end self).
Proof.
  intros Hs. destruct (text_at_cursor self Hs) as [-> Hl].
  by rewrite length_app, Hl, length_drop.
Qed.

Lemma cursor_le_text self : wf self -> cursor self <= length (text self).
Proof. intros Hwf. rewrite length_text by (unfold wf in Hwf; lia). lia. Qed.

#[export] Hint Resolve cursor_le_text : gb.

(** A buffer built from an ASCII string has its window closed at the end. *)
Lemma from_string_closed_at (s : RString) :
  Forall (fun c => is_ascii c = true) s -> from_string s = closed_at s (length s).
Proof. intros Ha. unfold from_string, closed_at. by rewrite string_len_ascii. Qed.

Lemma text_closed_at doc c : c <= length doc -> text (closed_at doc c) = doc.
Proof. intros H. unfold text; simpl. by rewrite take_drop. Qed.

(** ** Conversion to a string *)

Lemma into_string_ok self :
  typing_buf_start self <= length (document self) ->
  typing_buf_end self <= length (document self) ->
  into_string self = ok (text self).
Proof.
  intros Hs He. unfold into_string, make_into_string_by_consuming, text.
  by rewrite VecDeque.range_prefix, VecDeque.range_from_ok.
Qed.

Lemma into_string_panic self :
  length (document self) < typing_buf_start self \/
  length (document self) < typing_buf_end self ->
  into_string self = panic.
Proof.
  intros [H | H]; unfold into_string, make_into_string_by_consuming.
  - by rewrite VecDeque.range_prefix_oob.
  - destruct (VecDeque.range _ _ _); [| done]. by rewrite VecDeque.range_from_oob.
Qed.

(** A successful conversion reads both indices inside the document and
    returns the text. *)
Lemma into_string_inv self s :
  into_string self = ok s ->
  typing_buf_start self <= length (document self) /\
  typing_buf_end self <= length (document self) /\ s = text self.
Proof.
  intros H.
  destruct (decide (typing_buf_start self <= length (document self))) as [Hs |];
    [| rewrite into_string_panic in H by lia; done].
  destruct (decide (typing_buf_end self <= length (document self))) as [He |];
    [| rewrite into_string_panic in H by lia; done].
  rewrite into_string_ok in H by done. by injection H as <-.
Qed.

(** [C3] Converting an ASCII [String] into a [GapBuffer] and back gives the
    string: [String::from(GapBuffer::from(s)) == s]. *)
Theorem from_into_roundtrip (s : RString) :
  Forall (fun c => is_ascii c = true) s ->
  into_string (from_string s) = ok s.
Proof.
  intros Hascii. unfold from_string. rewrite string_len_ascii by done.
  rewrite into_string_ok by (simpl; lia).
  unfold text; simpl. by rewrite firstn_all, skipn_all, !app_nil_r.
Qed.

(** [C4] As soon as [s] holds one non-ASCII character, converting it into
    a [GapBuffer] and back panics: [From<String>] sets both indices to the
    byte length [s.len()], which then exceeds the number of characters of
    the document and [VecDeque::range] panics. *)
Theorem from_into_non_ascii_panics (s : RString) c :
  c ∈ s -> is_ascii c = false ->
  into_string (from_string s) = panic.
Proof.
  intros Hin Hc. apply into_string_panic. left. simpl.
  by apply (string_len_non_ascii s c).
Qed.

End GapBuffer.
