(* ===== verification/Editing.v ===== *)
(** * Editing: [insert_at_cursor], [delete], [flush_typing_buf], [len], [is_empty]

    [Module Editing] translates the editing methods of [impl GapBuffer]
    ([src/src/lib.rs] lines 62-100): [insert_at_cursor], [delete] with its
    loop ([delete_loop], whose non-negative branch has the early [return])
    and the body of its negative branch ([delete_back_step]),
    [flush_typing_buf], [len] and [is_empty].  It proves their behaviour on
    the text and cursor of a well-formed state ([GapBuffer.wf]), every
    branch of [delete] included: backward deletion first consumes pending
    typed characters and then committed ones, forward deletion widens the
    window and stops at the end of the document; both loops always return,
    and [flush_typing_buf] runs the same chain as the conversion to a
    [String].  The last section states
    where these methods depart from the spec: forward deletion starting at
    the end, flushing after a deletion to the end, [is_empty] against
    [len]; the cursor after a flush is [flush_typing_buf_spec]. *)

From stdpp Require Import base list.
From Stdlib Require Import ZArith Lia.
From Stdlib Require Strings.String.
From S2P Require Import Prelude RustStd GapBuffer.
Import String.StringSyntax.

Open Scope gb_scope.

Module Editing.
Import GapBuffer.

(** ** Methods *)

Definition insert_at_cursor (s : RString) (self : GapBuffer) : GapBuffer :=
  mkGapBuffer (document self) (typing_buf self ++ s)
    (typing_buf_start self) (typing_buf_end self).

(** One iteration of the loop of [delete] with [n] negative. *)
Definition delete_back_step (self : GapBuffer) : GapBuffer :=
  let '(popped, buf') := VecDeque.pop_back (typing_buf self) in
  match popped with
  | None =>
      mkGapBuffer (document self) buf' (typing_buf_start self - 1) (typing_buf_end self)
  | Some _ =>
      mkGapBuffer (document self) buf' (typing_buf_start self) (typing_buf_end self)
  end.

(** The loop of [delete]; with [n] non-negative an iteration may [return]. *)
Fixpoint delete_loop (negative : bool) (k : nat) (self : GapBuffer)
    : Panic GapBuffer :=
  match k with
  | O => ok self
  | S k' =>
      if negative then delete_loop negative k' (delete_back_step self)
      else
        let? end1 := usize_add (typing_buf_end self) 1 in
        let self' := mkGapBuffer (document self) (typing_buf self)
                       (typing_buf_start self) end1 in
        if end1 =? length (document self') then ok self'
        else delete_loop negative k' self'
  end.

Definition delete (n : Z) (self : GapBuffer) : Panic GapBuffer :=
  let? count := isize_abs n in
  delete_loop (n <? 0)%Z (Z.to_nat count) self.

Definition flush_typing_buf (self : GapBuffer) : Panic GapBuffer :=
  let? pre := VecDeque.range (document self) 0 (typing_buf_start self) in
  let? post := VecDeque.range_from (document self) (typing_buf_end self) in
  ok (mkGapBuffer (pre ++ typing_buf self ++ post) []
        (typing_buf_end self) (typing_buf_end self)).

Definition len (self : GapBuffer) : Panic nat :=
  let? a := usize_add (length (typing_buf self)) (typing_buf_start self) in
  let? b := usize_add a (length (document self)) in
  usize_sub b (typing_buf_end self).

Definition is_empty (self : GapBuffer) : bool :=
  VecDeque.is_empty (document self) && VecDeque.is_empty (typing_buf self).


(** ** Insertion *)

Lemma insert_at_cursor_spec t b :
  typing_buf_start b <= length (document b) ->
  text (insert_at_cursor t b) = take (cursor b) (text b) ++ t ++ drop (cursor b) (text b) /\
  cursor (insert_at_cursor t b) = cursor b + length t.
Proof.
  intros Hs. rewrite take_cursor_text, drop_cursor_text by done.
  unfold text, cursor; simpl. rewrite length_app. split; [| lia].
  by rewrite <- !app_assoc.
Qed.

(** [C6] When a buffer converts to the string [s], after
    [insert_at_cursor t] it converts to [s] with [t] inserted at the
    cursor, and the cursor is after [t]. *)
Theorem insert_at_cursor_into t b s :
  into_string b = ok s ->
  into_string (insert_at_cursor t b) =
    ok (take (cursor b) s ++ t ++ drop (cursor b) s) /\
  cursor (insert_at_cursor t b) = cursor b + length t.
Proof.
  intros H. destruct (into_string_inv b s H) as (Hs & He & ->).
  destruct (insert_at_cursor_spec t b Hs) as [<- Hc]. split; [| done].
  by apply into_string_ok.
Qed.

(** ** Backward deletion *)

Lemma delete_back_step_spec b :
  wf b ->
  wf (delete_back_step b) /\
  text (delete_back_step b) = take (cursor b - 1) (text b) ++ drop (cursor b) (text b) /\
  cursor (delete_back_step b) = cursor b - 1 /\
  document (delete_back_step b) = document b /\
  length (typing_buf (delete_back_step b)) <= length (typing_buf b).
Proof.
  intros Hwf. pose proof Hwf as Hwf'. unfold wf in Hwf'.
  rewrite drop_cursor_text by lia.
  destruct b as [doc buf s e]; simpl in *.
  destruct (VecDeque.snoc_cases buf) as [-> | (buf' & y & ->)].
  - unfold delete_back_step; simpl. unfold wf, text, cursor; simpl.
    rewrite Nat.add_0_r, take_app_le, take_take by (rewrite ?length_take; lia).
    split_and!; [lia | lia | | lia | done | lia]. by rewrite Nat.min_l by lia.
  - unfold delete_back_step; simpl. rewrite VecDeque.pop_back_snoc.
    unfold wf, text, cursor; simpl. rewrite length_app; simpl.
    replace (s + (length buf' + 1) - 1) with (s + length buf') by lia.
    split_and!; [lia | lia | | lia | done | lia].
    replace (take s doc ++ (buf' ++ [y]) ++ drop e doc)
      with ((take s doc ++ buf') ++ [y] ++ drop e doc) by (by rewrite <- !app_assoc).
    rewrite take_app_length' by (rewrite length_app, length_take; lia).
    by rewrite app_assoc.
Qed.

Lemma delete_back_loop k b :
  wf b ->
  exists b', delete_loop true k b = ok b' /\ wf b' /\
    text b' = take (cursor b - k) (text b) ++ drop (cursor b) (text b) /\
    cursor b' = cursor b - k /\
    document b' = document b /\ length (typing_buf b') <= length (typing_buf b).
Proof.
  revert b. induction k as [| k IH]; intros b Hwf; simpl.
  { exists b. by rewrite Nat.sub_0_r, take_drop. }
  destruct (delete_back_step_spec b Hwf) as (Hwf1 & Ht1 & Hc1 & Hd1 & Hb1).
  destruct (IH _ Hwf1) as (b' & Hrun & Hwf' & Ht' & Hc' & Hd' & Hb'). exists b'.
  split_and!; [done | done | | lia | congruence | lia].
  pose proof (cursor_le_text b Hwf).
  rewrite Ht', Ht1, Hc1, take_app_le, take_take, drop_app_length'
    by (rewrite ?length_take; lia).
  do 2 f_equal. lia.
Qed.

Lemma delete_neg n b :
  (n < 0)%Z -> n <> isize_min -> delete n b = delete_loop true (Z.to_nat (- n)) b.
Proof.
  intros Hneg Hmin. unfold delete. rewrite isize_abs_ok by done.
  cbv beta iota delta [ok]. rewrite (proj2 (Z.ltb_lt n 0) Hneg).
  by rewrite Z.abs_neq by lia.
Qed.

Lemma delete_nonneg n b :
  (0 <= n)%Z -> delete n b = delete_loop false (Z.to_nat n) b.
Proof.
  intros Hpos. unfold delete. rewrite isize_abs_ok by (unfold isize_min; lia).
  cbv beta iota delta [ok]. rewrite (proj2 (Z.ltb_ge n 0) Hpos).
  by rewrite Z.abs_eq by lia.
Qed.

(** [C7] [delete n] with [n < 0] (backspace) removes the [|n|] characters
    before the cursor (all of them when there are fewer) and moves the
    cursor back over them; it never panics on a well-formed state. *)
Theorem delete_backward_spec n b :
  wf b -> (n < 0)%Z -> n <> isize_min ->
  exists b', delete n b = ok b' /\ wf b' /\
    text b' = take (cursor b - Z.to_nat (- n)) (text b) ++ drop (cursor b) (text b) /\
    cursor b' = cursor b - Z.to_nat (- n) /\
    document b' = document b /\ length (typing_buf b') <= length (typing_buf b).
Proof.
  intros Hwf Hneg Hmin. rewrite delete_neg by done. by apply delete_back_loop.
Qed.

(** ** Forward deletion *)

Lemma delete_fwd_loop k b :
  wf b -> typing_buf_end b < length (document b) -> fits (length (document b)) ->
  delete_loop false k b =
    ok (mkGapBuffer (document b) (typing_buf b) (typing_buf_start b)
          (Nat.min (typing_buf_end b + k) (length (document b)))).
Proof.
  destruct b as [doc buf s e]. unfold wf; simpl. revert e.
  induction k as [| k IH]; intros e Hwf He Hfit; simpl.
  { do 2 f_equal. lia. }
  rewrite usize_add_ok by gb_arith. simpl.
  destruct (Nat.eqb_spec (e + 1) (length doc)) as [Heq | Hne].
  - do 2 f_equal. lia.
  - rewrite IH by (done || lia). do 2 f_equal. lia.
Qed.

(** Widening the window by [k] characters, up to the end of the document,
    removes the [k] characters after the cursor. *)
Lemma delete_fwd_text k b :
  wf b ->
  text (mkGapBuffer (document b) (typing_buf b) (typing_buf_start b)
          (Nat.min (typing_buf_end b + k) (length (document b)))) =
    take (cursor b) (text b) ++ drop (cursor b + k) (text b).
Proof.
  intros Hwf. pose proof Hwf as Hw. unfold wf in Hw.
  rewrite take_cursor_text by lia.
  rewrite <- drop_drop, drop_cursor_text, drop_drop by lia.
  unfold text; simpl. rewrite <- app_assoc. do 2 f_equal.
  destruct (decide (typing_buf_end b + k <= length (document b))).
  - f_equal. lia.
  - rewrite !drop_ge by lia. done.
Qed.

(** [C8] [delete n] with [n >= 0], while the window end is inside the
    document, removes the [n] characters after the cursor (all of them
    when there are fewer) and keeps the cursor. *)
Theorem delete_forward_spec n b :
  wf b -> (0 <= n)%Z -> typing_buf_end b < length (document b) ->
  fits (length (document b)) ->
  exists b', delete n b = ok b' /\ wf b' /\
    text b' = take (cursor b) (text b) ++ drop (cursor b + Z.to_nat n) (text b) /\
    cursor b' = cursor b /\
    document b' = document b /\ typing_buf b' = typing_buf b.
Proof.
  intros Hwf Hpos He Hfit. rewrite delete_nonneg by done.
  rewrite delete_fwd_loop by done. eexists; split; [done |].
  rewrite delete_fwd_text by done.
  unfold wf, cursor in *; simpl. split_and!; [lia | lia | done | done | done | done].
Qed.

(** ** Termination *)

Lemma delete_loop_returns negative k b :
  (negative = false -> (Z.of_nat (typing_buf_end b + k) <= usize_max)%Z) ->
  exists b', delete_loop negative k b = ok b'.
Proof.
  revert b. induction k as [| k IH]; intros b Hk; simpl; [by eexists |].
  destruct negative; [by apply IH |].
  rewrite usize_add_ok by (specialize (Hk eq_refl); lia). simpl.
  case_match; [by eexists |]. apply IH. simpl. intros Hf. specialize (Hk Hf). lia.
Qed.

(** [C23] [delete n] runs its loop to the end, or to its early [return],
    and returns on every state, for every [n] but [isize::MIN] (whose
    [abs] overflows), as long as a forward deletion cannot push
    [typing_buf_end] past [usize::MAX]. *)
Theorem delete_returns n b :
  n <> isize_min -> ((0 <= n)%Z -> (Z.of_nat (typing_buf_end b) + n <= usize_max)%Z) ->
  exists b', delete n b = ok b'.
Proof.
  intros Hmin Hn. destruct (Z.ltb_spec n 0) as [Hneg | Hpos].
  - rewrite delete_neg by done. apply delete_loop_returns. done.
  - rewrite delete_nonneg by done. apply delete_loop_returns.
    intros _. specialize (Hn Hpos). lia.
Qed.

(** ** Flush *)

(** [C12] On a well-formed state, [flush_typing_buf] commits the text:
    the new document is the text, the window is empty, and both indices
    are the old window end. *)
Theorem flush_typing_buf_spec b :
  wf b ->
  flush_typing_buf b =
    ok (mkGapBuffer (text b) [] (typing_buf_end b) (typing_buf_end b)).
Proof.
  intros Hwf. unfold wf in Hwf. unfold flush_typing_buf.
  by rewrite VecDeque.range_prefix, VecDeque.range_from_ok by lia.
Qed.

(** [C24] [flush_typing_buf] and the conversion to a [String] run the same
    iterator chain: on every state, flushing panics exactly when the
    conversion does, and otherwise replaces the document by the string the
    conversion returns, empties the window and puts both indices at the
    old window end. *)
Theorem flush_is_into_string b :
  flush_typing_buf b =
    (let? s := into_string b in
     ok (mkGapBuffer s [] (typing_buf_end b) (typing_buf_end b))).
Proof.
  unfold flush_typing_buf, into_string, make_into_string_by_consuming.
  destruct (VecDeque.range _ _ _); [| done].
  by destruct (VecDeque.range_from _ _).
Qed.

(** A state with an empty window over a document [d] stands for [d],
    wherever its two (equal) indices are. *)
Lemma text_committed d i : text (mkGapBuffer d [] i i) = d.
Proof. unfold text; simpl. apply take_drop. Qed.

#[export] Hint Rewrite text_committed : gb_rw.

(** ** Length and emptiness *)

Lemma len_spec b :
  typing_buf_start b <= length (document b) ->
  typing_buf_end b <= length (document b) ->
  fits (length (document b)) -> fits (length (typing_buf b)) ->
  len b = ok (length (text b)).
Proof.
  intros Hs He HL Hb. unfold len.
  rewrite usize_add_ok by gb_arith. cbv beta iota delta [ok].
  rewrite usize_add_ok by gb_arith. cbv beta iota delta [ok].
  rewrite usize_sub_ok by lia. rewrite length_text by lia.
  unfold cursor. f_equal. lia.
Qed.

(** [C13] Whenever a buffer converts to a string [s], [len()] returns the
    length of [s] without overflowing (spec section 8, length invariant). *)
Theorem len_into b s :
  into_string b = ok s ->
  fits (length (document b)) -> fits (length (typing_buf b)) ->
  len b = ok (length s).
Proof.
  intros H HL Hb. destruct (into_string_inv b s H) as (Hs & He & ->).
  by apply len_spec.
Qed.

Lemma is_empty_text b : is_empty b = true -> text b = [].
Proof.
  unfold is_empty. rewrite andb_true_iff, !VecDeque.is_empty_true.
  destruct b as [doc buf s e]; simpl. intros [-> ->]. unfold text; simpl.
  by rewrite take_nil, drop_nil.
Qed.

(** * Defects of the editing methods *)

(** ** Forward deletion at the end of the document *)

Lemma delete_loop_past_end k b :
  length (document b) <= typing_buf_end b ->
  (Z.of_nat (typing_buf_end b + k) <= usize_max)%Z ->
  delete_loop false k b =
    ok (mkGapBuffer (document b) (typing_buf b) (typing_buf_start b) (typing_buf_end b + k)).
Proof.
  destruct b as [doc buf s e]; simpl. revert e.
  induction k as [| k IH]; intros e He Hk; simpl.
  { by rewrite Nat.add_0_r. }
  rewrite usize_add_ok by lia. simpl.
  rewrite (proj2 (Nat.eqb_neq (e + 1) (length doc))) by lia.
  rewrite IH by lia. do 2 f_equal. lia.
Qed.

(** [C17] Deleting forward at the end of the document (the cursor of a
    fresh buffer) does not stop at the end as spec section 4.1 says: it
    moves [typing_buf_end] past the document, and every later conversion
    to a [String] panics. *)
Theorem delete_forward_at_end_panics (s : RString) (n : Z) :
  Forall (fun c => is_ascii c = true) s -> fits (length s) ->
  (0 < n <= isize_max)%Z ->
  exists b, delete n (from_string s) = ok b /\ into_string b = panic.
Proof.
  intros Ha Hf Hn. unfold delete. rewrite isize_abs_ok by (unfold isize_min; lia).
  cbv beta iota delta [ok]. rewrite (proj2 (Z.ltb_ge n 0)) by lia.
  rewrite from_string_closed_at by done.
  rewrite delete_loop_past_end by (simpl; gb_arith). eexists; split; [done |].
  apply into_string_panic. right. simpl. lia.
Qed.

(** ** Flush after a forward deletion to the end *)

(** [C18] Deleting forward to the end of the document and then flushing
    leaves both indices at the old length of the document, which the
    flush has shortened to the text before the window: the buffer can no
    longer be converted to a [String] exactly when the cursor was before
    the end of the old document, that is, whenever the pending text is
    shorter than what the deletion removed. *)
Theorem delete_to_end_then_flush b n :
  wf b -> typing_buf_end b < length (document b) -> fits (length (document b)) ->
  (Z.of_nat (length (document b) - typing_buf_end b) <= n)%Z ->
  (let? b1 := delete n b in let? b2 := flush_typing_buf b1 in into_string b2) = panic <->
  cursor b < length (document b).
Proof.
  intros Hwf He Hf Hn. pose proof Hwf as Hw. unfold wf in Hw.
  rewrite delete_nonneg, delete_fwd_loop by (done || lia). cbv beta iota delta [ok].
  replace (Nat.min (typing_buf_end b + Z.to_nat n) (length (document b)))
    with (length (document b)) by lia.
  unfold flush_typing_buf; simpl.
  rewrite VecDeque.range_prefix, VecDeque.range_from_ok by lia. cbv beta iota delta [ok].
  rewrite drop_all, app_nil_r.
  assert (Hl : length (take (typing_buf_start b) (document b) ++ typing_buf b) = cursor b)
    by (unfold cursor; rewrite length_app, length_take; lia).
  destruct (decide (cursor b < length (document b))).
  - rewrite into_string_panic by (simpl; lia). split; [intros _; lia | done].
  - rewrite into_string_ok by (simpl; lia). split; [discriminate | lia].
Qed.

(** ** [is_empty] and [len] *)

(** [C19] [is_empty()] is not [len() == 0]: on a well-formed state,
    [len()] is 0 while [is_empty()] is false exactly when the whole
    non-empty document lies in the window and nothing is pending, the
    state a forward deletion of the whole text from index 0 leaves:
    [is_empty] looks at [document], not at the text. *)
Theorem is_empty_len_zero b :
  wf b -> fits (length (document b)) -> fits (length (typing_buf b)) ->
  (len b = ok 0 /\ is_empty b = false) <->
  (typing_buf b = [] /\ typing_buf_start b = 0 /\
   typing_buf_end b = length (document b) /\ document b <> []).
Proof.
  intros Hwf Hd Hb. unfold wf in Hwf. rewrite len_spec by (done || lia).
  rewrite length_text by lia. unfold is_empty, cursor. split.
  - intros [Hl He]. injection Hl as Hl.
    assert (HB : typing_buf b = []) by (destruct (typing_buf b); [done | simpl in Hl; lia]).
    split_and!; [done | lia | lia |]. intros HD. by rewrite HD, HB in He.
  - intros (HB & Hs & He & HD). rewrite HB. split; [f_equal; simpl; lia |].
    rewrite (VecDeque.is_empty_false (document b)); [done |].
    destruct (document b); [done | simpl; lia].
Qed.

End Editing.
