(* ===== verification/Motion.v ===== *)
(** * Cursor motion: [move_cursor] and [move_cursor_to]

    [Module Motion] translates [move_cursor_to] and [move_cursor]
    ([src/src/lib.rs] lines 15-60): the two bodies of the loop of
    [move_cursor] are [move_left_step] and [move_right_step], the loop is
    [move_cursor_loop].  It proves their behaviour on the text and cursor
    of [GapBuffer]:
    - a right step with the window end inside the document shifts the
      window one place to the right and keeps the text ([shifted]);
    - on a buffer whose window is closed ([closed_at doc c]: no pending
      characters, start = end = [c]), left and right steps move [c] and
      keep the document, with the right steps clamped at its end;
    - a left step on a well-formed state panics exactly when it writes
      one past the end of the document, and right moves always return;
    - the last section states where the code loses the text or panics:
      moving left from index 0, moving left over typed text, moving right
      past the end after typing, moving right after deleting to the end,
      [move_cursor_to] beyond [isize::MAX]. *)

From stdpp Require Import base list.
From Stdlib Require Import ZArith Lia.
From Stdlib Require Strings.String.
From S2P Require Import Prelude RustStd GapBuffer Editing.
Import String.StringSyntax.

Open Scope gb_scope.

Module Motion.
Import GapBuffer Editing.

(** ** Methods *)

(** One iteration of the loop of [move_cursor] with [n] negative. *)
Definition move_left_step (self : GapBuffer) : Panic GapBuffer :=
  let doc := document self in
  let buf1 :=
    match VecDeque.get doc (typing_buf_start self) with
    | Some yes => VecDeque.push_front yes (typing_buf self)
    | None => typing_buf self
    end in
  let start1 := typing_buf_start self - 1 in
  let '(popped, buf2) := VecDeque.pop_back buf1 in
  let? doc1 :=
    match popped with
    | Some yes =>
        if typing_buf_end self =? 0 then ok (VecDeque.push_front yes doc)
        else if negb (VecDeque.is_empty doc) then
          VecDeque.set doc (typing_buf_end self) yes
        else ok (VecDeque.push_back yes doc)
    | None => ok doc
    end in
  ok (mkGapBuffer doc1 buf2 start1 (typing_buf_end self - 1)).

(** One iteration of the loop of [move_cursor] with [n] non-negative.  The
    [min] of the new start reads the length of the document after the
    write-back, as the Rust code does. *)
Definition move_right_step (self : GapBuffer) : Panic GapBuffer :=
  let doc := document self in
  let buf1 :=
    match VecDeque.get doc (typing_buf_end self) with
    | Some yes => VecDeque.push_back yes (typing_buf self)
    | None => typing_buf self
    end in
  let? end1 := usize_add (typing_buf_end self) 1 in
  let end2 := Nat.min end1 (length doc) in
  let '(popped, buf2) := VecDeque.pop_front buf1 in
  let? doc1 :=
    match popped with
    | Some yes =>
        if typing_buf_start self =? length doc then ok (VecDeque.push_back yes doc)
        else if negb (VecDeque.is_empty doc) then
          VecDeque.set doc (typing_buf_start self) yes
        else ok (VecDeque.push_front yes doc)
    | None => ok doc
    end in
  ok (mkGapBuffer doc1 buf2
        (Nat.min (usize_saturating_add (typing_buf_start self) 1) (length doc1))
        end2).

(** [for _ in 0..k { if negative { .. } else { .. } }]. *)
Fixpoint move_cursor_loop (negative : bool) (k : nat) (self : GapBuffer)
    : Panic GapBuffer :=
  match k with
  | O => ok self
  | S k' =>
      let? self' := if negative then move_left_step self else move_right_step self in
      move_cursor_loop negative k' self'
  end.

Definition move_cursor (n : Z) (self : GapBuffer) : Panic GapBuffer :=
  let? count := isize_abs n in
  move_cursor_loop (n <? 0)%Z (Z.to_nat count) self.

(** The argument [i : usize] is a binary natural number. *)
Definition move_cursor_to (i : N) (self : GapBuffer) : Panic GapBuffer :=
  let? pos := usize_add (typing_buf_start self) (length (typing_buf self)) in
  let? delta := isize_sub (usize_as_isize (Z.of_N i)) (usize_as_isize (Z.of_nat pos)) in
  move_cursor delta self.


(** [b'] is [b] with its window moved [k] places right over the same
    document and the same text. *)
Definition shifted (k : nat) (b b' : GapBuffer) : Prop :=
  length (document b') = length (document b) /\
  typing_buf_start b' = typing_buf_start b + k /\
  typing_buf_end b' = typing_buf_end b + k /\
  length (typing_buf b') = length (typing_buf b) /\
  text b' = text b.

Lemma shifted_refl b : shifted 0 b b.
Proof. unfold shifted. rewrite !Nat.add_0_r. done. Qed.

Lemma shifted_trans k1 k2 b1 b2 b3 :
  shifted k1 b1 b2 -> shifted k2 b2 b3 -> shifted (k1 + k2) b1 b3.
Proof. unfold shifted. intros. destruct_and!. split_and!; congruence || lia. Qed.

Lemma shifted_wf k b b' :
  shifted k b b' -> wf b -> typing_buf_end b + k <= length (document b) -> wf b'.
Proof. unfold shifted, wf. intros. destruct_and!. lia. Qed.

Lemma shifted_cursor k b b' : shifted k b b' -> cursor b' = cursor b + k.
Proof. unfold shifted, cursor. intros. destruct_and!. lia. Qed.

(** ** Right steps inside the document *)

Lemma move_right_step_shift b :
  wf b -> typing_buf_end b < length (document b) ->
  fits (length (document b)) ->
  exists b', move_right_step b = ok b' /\ shifted 1 b b'.
Proof.
  destruct b as [doc buf s e]; unfold wf, fits; simpl.
  intros [Hse _] HeL Hfit.
  destruct (lookup_lt_Some_ex doc e HeL) as [x Hx].
  unfold move_right_step, VecDeque.get, VecDeque.push_back; simpl. rewrite Hx.
  rewrite usize_add_ok by gb_arith.
  destruct (buf ++ [x]) as [| h t] eqn:Hbx; [by destruct buf |]. simpl.
  rewrite (proj2 (Nat.eqb_neq s (length doc))) by lia.
  rewrite VecDeque.is_empty_false by lia. simpl.
  rewrite VecDeque.set_ok by lia. simpl.
  rewrite usize_saturating_add_ok by gb_arith. rewrite length_insert.
  eexists; split; [reflexivity |].
  unfold shifted, text; simpl. rewrite length_insert.
  split_and!; try lia.
  - apply (f_equal length) in Hbx. simpl in Hbx. rewrite length_app in Hbx. simpl in Hbx. lia.
  - rewrite (Nat.min_l (s + 1)), (Nat.min_l (e + 1)) by lia.
    rewrite !Nat.add_1_r, take_S_insert, drop_insert_lt by lia.
    rewrite (drop_lookup_cons doc e x Hx), <- app_assoc. simpl.
    f_equal. rewrite app_comm_cons, <- Hbx, <- app_assoc. done.
Qed.

Lemma move_right_loop_shift k b :
  wf b -> typing_buf_end b + k <= length (document b) ->
  fits (length (document b)) ->
  exists b', move_cursor_loop false k b = ok b' /\ shifted k b b'.
Proof.
  revert b. induction k as [| k IH]; intros b Hwf Hk Hfit; simpl.
  { exists b. split; [done | apply shifted_refl]. }
  destruct (move_right_step_shift b) as [b1 [-> Hs1]]; [done | lia | done |].
  destruct (IH b1) as [b2 [Hrun Hs2]].
  - apply (shifted_wf 1 b); [done | done | lia].
  - destruct Hs1 as (HL & _ & He & _). lia.
  - by destruct Hs1 as [-> _].
  - exists b2. split; [done |]. by apply (shifted_trans 1 k b b1 b2).
Qed.

(** ** The loop count and the delta of [move_cursor_to] *)

Lemma move_cursor_nonneg n b :
  (0 <= n)%Z -> move_cursor n b = move_cursor_loop false (Z.to_nat n) b.
Proof.
  intros Hn. unfold move_cursor.
  rewrite isize_abs_ok by (unfold isize_min; lia). cbv beta iota delta [ok].
  rewrite (proj2 (Z.ltb_ge n 0) Hn). by rewrite Z.abs_eq by lia.
Qed.

Lemma move_cursor_neg n b :
  (n < 0)%Z -> n <> isize_min ->
  move_cursor n b = move_cursor_loop true (Z.to_nat (- n)) b.
Proof.
  intros Hn Hmin. unfold move_cursor. rewrite isize_abs_ok by done.
  cbv beta iota delta [ok]. rewrite (proj2 (Z.ltb_lt n 0) Hn).
  by rewrite Z.abs_neq by lia.
Qed.

(** Without overflow, [move_cursor_to i] is [move_cursor] by [i - cursor]. *)
Lemma move_cursor_to_delta (i : N) b :
  typing_buf_start b <= length (document b) ->
  fits (length (document b)) -> fits (length (typing_buf b)) ->
  (Z.of_N i <= isize_max)%Z ->
  move_cursor_to i b = move_cursor (Z.of_N i - Z.of_nat (cursor b)) b.
Proof.
  intros Hs HL Hb Hi. unfold move_cursor_to, cursor.
  rewrite usize_add_ok by gb_arith. cbv beta iota delta [ok].
  rewrite !usize_as_isize_small by gb_arith.
  rewrite isize_sub_ok by gb_arith. done.
Qed.

(** [C9] [move_cursor n] with [n >= 0], while the window end stays inside
    the document, keeps the text and the document length, moves the
    cursor [n] places right, and keeps the buffer well-formed. *)
Theorem move_cursor_right_spec (n : Z) b :
  wf b -> (0 <= n)%Z ->
  (Z.of_nat (typing_buf_end b) + n <= Z.of_nat (length (document b)))%Z ->
  fits (length (document b)) ->
  exists b', move_cursor n b = ok b' /\ wf b' /\ text b' = text b /\
    cursor b' = cursor b + Z.to_nat n /\ length (document b') = length (document b).
Proof.
  intros Hwf Hn Hle Hfit. rewrite move_cursor_nonneg by done.
  destruct (move_right_loop_shift (Z.to_nat n) b) as [b' [Hrun Hs]]; [done | lia | done |].
  exists b'. split_and!; [done | | | by apply shifted_cursor | by destruct Hs].
  - apply (shifted_wf (Z.to_nat n) b); [done | done | lia].
  - by destruct Hs as (_ & _ & _ & _ & ?).
Qed.

(** [k1 + k2] iterations of the loop are [k1] and then [k2]. *)
Lemma move_cursor_loop_add negative k1 k2 b :
  move_cursor_loop negative (k1 + k2) b =
    (let? b1 := move_cursor_loop negative k1 b in move_cursor_loop negative k2 b1).
Proof.
  revert b. induction k1 as [| k1 IH]; intros b; simpl; [done |].
  destruct (if negative then move_left_step b else move_right_step b); [apply IH | done].
Qed.

(** ** Steps on a closed window *)

Lemma move_right_step_closed doc c :
  c <= length doc -> fits (length doc) ->
  move_right_step (closed_at doc c) = ok (closed_at doc (Nat.min (c + 1) (length doc))).
Proof.
  intros Hc Hfit. unfold move_right_step, VecDeque.get, closed_at; simpl.
  rewrite usize_add_ok by gb_arith.
  destruct (decide (c < length doc)) as [Hlt | Hge].
  - destruct (lookup_lt_Some_ex doc c Hlt) as [x Hx]. rewrite Hx. simpl.
    rewrite (proj2 (Nat.eqb_neq c (length doc))) by lia.
    rewrite VecDeque.is_empty_false by lia. simpl.
    rewrite VecDeque.set_ok by lia. simpl.
    rewrite usize_saturating_add_ok by gb_arith.
    rewrite list_insert_id by done. unfold closed_at. f_equal; lia.
  - rewrite lookup_ge_None_2 by lia. simpl.
    rewrite usize_saturating_add_min by done. unfold closed_at. f_equal; lia.
Qed.

Lemma move_left_step_closed doc c :
  c <= length doc -> (0 < c \/ length doc = 0) ->
  move_left_step (closed_at doc c) = ok (closed_at doc (c - 1)).
Proof.
  intros Hc Hpos. unfold move_left_step, VecDeque.get, closed_at; simpl.
  destruct (decide (c < length doc)) as [Hlt | Hge].
  - destruct (lookup_lt_Some_ex doc c Hlt) as [x Hx]. rewrite Hx. simpl.
    rewrite (proj2 (Nat.eqb_neq c 0)) by lia.
    rewrite VecDeque.is_empty_false by lia. simpl.
    rewrite VecDeque.set_ok by lia. simpl.
    by rewrite list_insert_id.
  - by rewrite lookup_ge_None_2 by lia.
Qed.

Lemma move_left_loop_closed k doc c :
  k <= c -> c <= length doc ->
  move_cursor_loop true k (closed_at doc c) = ok (closed_at doc (c - k)).
Proof.
  revert c. induction k as [| k IH]; intros c Hk Hc; simpl.
  - by rewrite Nat.sub_0_r.
  - rewrite move_left_step_closed by lia. simpl.
    rewrite IH by lia. do 2 f_equal. lia.
Qed.

Lemma move_right_loop_closed k doc c :
  c <= length doc -> fits (length doc) ->
  move_cursor_loop false k (closed_at doc c) =
    ok (closed_at doc (Nat.min (c + k) (length doc))).
Proof.
  revert c. induction k as [| k IH]; intros c Hc Hfit; simpl.
  - do 2 f_equal. lia.
  - rewrite move_right_step_closed by done. simpl.
    rewrite IH by (done || lia). do 2 f_equal. lia.
Qed.

(** [C10] On a closed window at [c], [move_cursor n] moves the cursor to
    [c + n] clamped to the end of the document, and keeps the document,
    provided it does not try to move left of index 0. *)
Theorem move_cursor_closed n doc c :
  c <= length doc -> fits (length doc) -> n <> isize_min ->
  (0 <= Z.of_nat c + n)%Z ->
  move_cursor n (closed_at doc c) =
    ok (closed_at doc (Z.to_nat (Z.min (Z.of_nat c + n) (Z.of_nat (length doc))))).
Proof.
  intros Hc Hfit Hmin Hpos. unfold move_cursor. rewrite isize_abs_ok by done.
  cbv beta iota delta [ok].
  destruct (Z.ltb_spec n 0).
  - rewrite move_left_loop_closed by lia. do 2 f_equal. lia.
  - rewrite move_right_loop_closed by done. do 2 f_equal. lia.
Qed.

(** On a closed window, [move_cursor_to i] puts the cursor at [i] clamped
    to the end of the document and keeps the document, for every [i] up to
    [isize::MAX]. *)
Lemma move_cursor_to_closed (i : N) doc c :
  c <= length doc -> fits (length doc) ->
  (Z.of_N i <= isize_max)%Z ->
  move_cursor_to i (closed_at doc c) =
    ok (closed_at doc (Nat.min (N.to_nat i) (length doc))).
Proof.
  intros Hc Hfit Hi.
  rewrite move_cursor_to_delta by (simpl; (done || lia || gb_arith)).
  unfold cursor; simpl. destruct (Z.ltb_spec (Z.of_N i) (Z.of_nat c)).
  - rewrite move_cursor_neg by gb_arith.
    rewrite move_left_loop_closed by lia. do 2 f_equal. lia.
  - rewrite move_cursor_nonneg by lia.
    rewrite move_right_loop_closed by done. do 2 f_equal. lia.
Qed.

(** ** Left steps on any well-formed state *)

(** A left step that returns keeps the state well-formed, and the two
    deques gain at most one character between them (the write-back
    [push_front] at index 0). *)
Lemma move_left_step_wf b b' :
  wf b -> move_left_step b = ok b' -> wf b' /\ size b' <= S (size b).
Proof.
  destruct b as [doc buf s e]; unfold wf, size; simpl. intros Hwf H.
  unfold move_left_step in H; simpl in H.
  destruct (VecDeque.pop_back _) as [[y |] buf2] eqn:Hp.
  - apply VecDeque.pop_back_Some in Hp.
    assert (Hl : length buf2 <= length buf).
    { apply (f_equal length) in Hp. rewrite length_app in Hp. simpl in Hp.
      destruct (VecDeque.get doc s); simpl in Hp; lia. }
    destruct (Nat.eqb_spec e 0); [injection H as <-; simpl; lia |].
    destruct (VecDeque.is_empty doc) eqn:Hemp; simpl in H.
    + apply VecDeque.is_empty_true in Hemp. subst doc. simpl in Hwf. lia.
    + destruct (VecDeque.set doc e y) as [doc1 |] eqn:Hset; [| done].
      apply VecDeque.set_inv in Hset as [He ->]. injection H as <-. simpl.
      rewrite length_insert. lia.
  - apply VecDeque.pop_back_None in Hp as [Hb1 ->]. injection H as <-. simpl. lia.
Qed.

Lemma move_left_loop_wf k b b' :
  wf b -> move_cursor_loop true k b = ok b' -> wf b' /\ size b' <= size b + k.
Proof.
  revert b. induction k as [| k IH]; intros b Hwf H; simpl in H.
  { injection H as <-. split; [done | lia]. }
  destruct (move_left_step b) as [b1 |] eqn:H1; [| done].
  destruct (move_left_step_wf b b1 Hwf H1) as [Hwf1 Hs1].
  destruct (IH b1 Hwf1 H) as [Hwf' Hs']. split; [done | lia].
Qed.

(** [C21] On a well-formed state, a left step panics exactly when the
    window ends at the end of a non-empty document and there is a
    character to write back (a pending one, or one of the window): it
    then assigns [document[typing_buf_end]], one past the end. *)
Theorem move_left_step_panics b :
  wf b ->
  move_left_step b = panic <->
  typing_buf_end b = length (document b) /\ 0 < typing_buf_end b /\
  (typing_buf b <> [] \/ typing_buf_start b < typing_buf_end b).
Proof.
  destruct b as [doc buf s e]; unfold wf; simpl. intros Hwf.
  unfold move_left_step, VecDeque.get; simpl.
  destruct (decide (s < length doc)) as [Hs | Hs].
  - destruct (lookup_lt_Some_ex doc s Hs) as [x ->].
    destruct (VecDeque.pop_back _) as [[y |] buf2] eqn:Hp;
      [| apply VecDeque.pop_back_None in Hp as [? _]; done].
    rewrite VecDeque.is_empty_false by lia. simpl.
    destruct (Nat.eqb_spec e 0); [split; [done | lia] |].
    destruct (Nat.ltb_spec e (length doc)); unfold VecDeque.set.
    + rewrite (proj2 (Nat.ltb_lt _ _)) by done. split; [done | lia].
    + rewrite (proj2 (Nat.ltb_ge _ _)) by done. split; [intros _; lia | done].
  - rewrite lookup_ge_None_2 by lia.
    destruct (VecDeque.pop_back buf) as [[y |] buf2] eqn:Hp.
    + apply VecDeque.pop_back_Some in Hp as ->.
      destruct (Nat.eqb_spec e 0); [split; [done | lia] |].
      rewrite VecDeque.is_empty_false by lia. simpl.
      rewrite VecDeque.set_oob by lia.
      split; [intros _; split_and!; [lia | lia | left; by destruct buf2] | done].
    + apply VecDeque.pop_back_None in Hp as [-> ->]. simpl.
      split; [done | intros (_ & _ & [? | ?]); [done | lia]].
Qed.

(** ** Right moves always return *)

Lemma move_right_step_returns b :
  typing_buf_start b <= length (document b) ->
  (Z.of_nat (typing_buf_end b) < usize_max)%Z ->
  exists b', move_right_step b = ok b' /\
    typing_buf_start b' <= length (document b') /\ typing_buf_end b' <= S (typing_buf_end b).
Proof.
  destruct b as [doc buf s e]; simpl. intros Hs He.
  unfold move_right_step; simpl. rewrite usize_add_ok by lia. cbv beta iota delta [ok].
  destruct (VecDeque.pop_front _) as [[y |] buf2] eqn:Hp.
  - destruct (Nat.eqb_spec s (length doc)).
    + eexists; split; [reflexivity |]. simpl. unfold VecDeque.push_back.
      rewrite length_app. simpl. lia.
    + rewrite VecDeque.is_empty_false by lia. simpl. rewrite VecDeque.set_ok by lia.
      eexists; split; [reflexivity |]. simpl. rewrite length_insert. lia.
  - eexists; split; [reflexivity |]. simpl. lia.
Qed.

Lemma move_right_loop_returns k b :
  typing_buf_start b <= length (document b) ->
  (Z.of_nat (typing_buf_end b + k) <= usize_max)%Z ->
  exists b', move_cursor_loop false k b = ok b'.
Proof.
  revert b. induction k as [| k IH]; intros b Hs He; simpl; [by eexists |].
  destruct (move_right_step_returns b) as (b1 & -> & Hs1 & He1); [done | lia |].
  apply IH; [done | lia].
Qed.

(** [C22] [move_cursor n] with [n >= 0] runs its [n] iterations and
    returns, whatever the state, as long as [typing_buf_start] is inside
    the document and [typing_buf_end + n] is a [usize]: the only panics
    of a right move are the [checked_add(1).expect(..)] on the window end
    and the assignment at a start past the document. *)
Theorem move_cursor_right_returns (n : Z) b :
  (0 <= n)%Z -> typing_buf_start b <= length (document b) ->
  (Z.of_nat (typing_buf_end b) + n <= usize_max)%Z ->
  exists b', move_cursor n b = ok b'.
Proof.
  intros Hn Hs He. rewrite move_cursor_nonneg by done.
  apply move_right_loop_returns; [done | lia].
Qed.

(** * Defects of cursor motion *)

(** ** Moving left from index 0 duplicates the first character *)

Lemma move_left_step_at_start x doc :
  move_left_step (closed_at (x :: doc) 0) = ok (closed_at (x :: x :: doc) 0).
Proof. reflexivity. Qed.

(** Every further left step at index 0 doubles the first character again. *)
Lemma move_left_loop_at_start k x d :
  move_cursor_loop true k (closed_at (x :: d) 0) = ok (closed_at (replicate k x ++ x :: d) 0).
Proof.
  revert d. induction k as [| k IH]; intros d; cbn [move_cursor_loop replicate app]; [done |].
  rewrite move_left_step_at_start. cbv beta iota delta [ok]. rewrite IH.
  change (x :: replicate k x ++ x :: d) with (replicate (S k) x ++ x :: d).
  by rewrite replicate_S_end, <- app_assoc.
Qed.

(** [C5] Moving the cursor to 0 and then one more place left (the
    repository's test [scroll_past_start], spec section 8 scenario 7) does
    not leave the text unchanged: its first character is duplicated,
    because the left step writes the character back with [push_front]
    when [typing_buf_end] is 0. *)
Theorem scroll_past_start_duplicates (x : char) (rest : RString) :
  Forall (fun c => is_ascii c = true) (x :: rest) -> fits (length (x :: rest)) ->
  (let? b := move_cursor_to 0 (from_string (x :: rest)) in
   let? b := move_cursor (-1) b in
   into_string b) = ok (x :: x :: rest).
Proof.
  intros Ha Hf. rewrite from_string_closed_at by done.
  rewrite move_cursor_to_closed by (simpl; (lia || done || gb_arith)).
  cbv beta iota delta [ok]. replace (Nat.min (N.to_nat 0) _) with 0 by lia.
  rewrite move_cursor_neg by (unfold isize_min; lia).
  change (Z.to_nat (- -1)) with 1. cbn [move_cursor_loop].
  rewrite move_left_step_at_start. cbv beta iota delta [ok].
  rewrite into_string_ok by (simpl; lia). rewrite text_closed_at; [done | simpl; lia].
Qed.

(** ** Moving left over typed text *)

(** [C14] Typing at the end of a non-empty document and then moving the
    cursor left panics: the left step writes the last typed character to
    [document[typing_buf_end]], one past the end of the document. *)
Theorem type_then_left_panics (s t : RString) :
  Forall (fun c => is_ascii c = true) s -> s <> [] -> t <> [] ->
  move_cursor (-1) (insert_at_cursor t (from_string s)) = panic.
Proof.
  intros Ha Hs Ht. rewrite from_string_closed_at by done.
  rewrite move_cursor_neg by (unfold isize_min; lia). simpl.
  destruct (VecDeque.snoc_cases t) as [-> | (t' & y & ->)]; [done |].
  unfold move_left_step, closed_at, VecDeque.get; simpl.
  rewrite lookup_ge_None_2 by lia. rewrite VecDeque.pop_back_snoc.
  destruct s as [| c s']; [done |]. simpl.
  by rewrite VecDeque.set_oob by (simpl; lia).
Qed.

(** [C15] Inside the document, moving left over one typed character
    reorders the text: with the cursor between [a] and [b] (a closed
    window there), typing [x] and moving one place left gives
    [pre ++ b :: a :: x :: post] instead of [pre ++ a :: x :: b :: post]:
    the step pulls [b] into the window and writes [x] over its slot. *)
Theorem type_then_left_reorders (pre : RString) (a b x : char) (post : RString) :
  (let? bf := move_cursor (-1)
                (insert_at_cursor [x] (closed_at (pre ++ a :: b :: post) (S (length pre)))) in
   into_string bf) = ok (pre ++ b :: a :: x :: post).
Proof.
  rewrite move_cursor_neg by (unfold isize_min; lia).
  change (Z.to_nat (- -1)) with 1. cbn [move_cursor_loop].
  unfold move_left_step, closed_at, insert_at_cursor, VecDeque.get; simpl.
  rewrite lookup_app_r by lia. replace (S (length pre) - length pre) with 1 by lia. simpl.
  rewrite VecDeque.is_empty_false by (rewrite length_app; simpl; lia). simpl.
  rewrite VecDeque.set_ok by (rewrite length_app; simpl; lia). simpl.
  rewrite insert_app_r_alt by lia. replace (S (length pre) - length pre) with 1 by lia.
  simpl. rewrite into_string_ok by (simpl; rewrite length_app; simpl; lia).
  unfold text; simpl. rewrite Nat.sub_0_r, take_app_length, drop_app_length. done.
Qed.

(** ** Moving right past the end after typing *)

(** [C16] Typing at the end of the document and then moving the cursor
    right (towards a target past the end, which spec section 8 says must
    clamp) duplicates the first typed character at the end of the text. *)
Theorem type_then_right_duplicates (s t : RString) (y : char) :
  Forall (fun c => is_ascii c = true) s -> fits (length s) ->
  exists b, move_cursor 1 (insert_at_cursor (y :: t) (from_string s)) = ok b /\
    into_string b = ok (s ++ y :: t ++ [y]).
Proof.
  intros Ha Hf. rewrite from_string_closed_at by done.
  rewrite move_cursor_nonneg by lia. simpl.
  unfold move_right_step, closed_at, VecDeque.get; simpl.
  rewrite lookup_ge_None_2 by lia. rewrite usize_add_ok by gb_arith. simpl.
  rewrite Nat.eqb_refl. simpl. eexists; split; [reflexivity |].
  unfold VecDeque.push_back.
  assert (Hl : length (s ++ [y]) = length s + 1) by (rewrite length_app; simpl; lia).
  rewrite Hl, usize_saturating_add_ok by gb_arith.
  rewrite Nat.min_id, Nat.min_r by lia.
  rewrite into_string_ok by (simpl; lia). unfold text; simpl.
  rewrite take_ge by lia. rewrite drop_app_length. by rewrite <- app_assoc.
Qed.

(** ** [move_cursor_to] beyond [isize::MAX] *)

(** [C20] [move_cursor_to(i)] with [i] above [isize::MAX] does not clamp
    to the end as spec section 8 says: [i as isize] is [i - 2^64], a
    negative number, so the cursor moves left to index 0 and then
    [2^64 - i] more times, and each of these steps doubles the first
    character ([move_cursor_to(usize::MAX)] on ["ab"] gives ["aab"]). *)
Theorem move_to_past_isize_max_wraps (x : char) (rest : RString) (c : nat) (i : N) :
  c <= length (x :: rest) -> fits (length (x :: rest)) ->
  (isize_max < Z.of_N i <= usize_max)%Z ->
  (isize_min < Z.of_N i - 2 ^ 64 - Z.of_nat c)%Z ->
  move_cursor_to i (closed_at (x :: rest) c) =
    ok (closed_at (replicate (Z.to_nat (2 ^ 64 - Z.of_N i)) x ++ x :: rest) 0).
Proof.
  intros Hc Hf Hi Hmin. unfold move_cursor_to; simpl.
  rewrite usize_add_ok by gb_arith. cbv beta iota delta [ok]. rewrite Nat.add_0_r.
  rewrite usize_as_isize_large by lia. rewrite (usize_as_isize_small (Z.of_nat c)) by gb_arith.
  rewrite isize_sub_ok by gb_arith. cbv beta iota delta [ok].
  rewrite move_cursor_neg by (unfold usize_max, isize_max in *; lia).
  replace (Z.to_nat (- (Z.of_N i - 2 ^ 64 - Z.of_nat c)))
    with (c + Z.to_nat (2 ^ 64 - Z.of_N i)) by (unfold usize_max in *; lia).
  rewrite move_cursor_loop_add, move_left_loop_closed by lia.
  cbv beta iota delta [ok]. rewrite Nat.sub_diag. apply move_left_loop_at_start.
Qed.

(** ** Moving right after deleting to the end *)

(** [C25] After a forward deletion that reaches the end of the document
    (which leaves the text [take c doc] with the cursor at its end), one
    more step right, which spec section 8 says must clamp and change
    nothing, brings the first deleted character back: the right step
    moves [typing_buf_start] over it although the window still covers it. *)
Theorem right_after_delete_to_end_restores (doc : RString) (c : nat) (n : Z) :
  c < length doc -> fits (length doc) -> (Z.of_nat (length doc - c) <= n)%Z ->
  (let? b := delete n (closed_at doc c) in
   let? b := move_cursor 1 b in
   into_string b) = ok (take (S c) doc).
Proof.
  intros Hc Hf Hn.
  rewrite delete_nonneg, delete_fwd_loop by (unfold wf; simpl; (done || lia)).
  cbv beta iota delta [ok]; simpl.
  replace (Nat.min (c + Z.to_nat n) (length doc)) with (length doc) by lia.
  rewrite move_cursor_nonneg by lia. change (Z.to_nat 1) with 1. cbn [move_cursor_loop].
  unfold move_right_step, VecDeque.get; simpl. rewrite lookup_ge_None_2 by lia.
  rewrite usize_add_ok by gb_arith. simpl. rewrite usize_saturating_add_ok by gb_arith.
  rewrite into_string_ok by (simpl; lia). unfold text; simpl.
  rewrite (drop_ge doc) by lia. rewrite Nat.min_l by lia. by rewrite Nat.add_1_r, !app_nil_r.
Qed.

End Motion.
