(* ===== verification/Reach.v ===== *)
(** * The crate as a state machine: reachable states and their invariant

    [Module Reach] puts the methods of [impl GapBuffer] that take
    [&mut self] together as one step relation: a [Call] is one call of
    [move_cursor_to], [move_cursor], [insert_at_cursor], [delete] or
    [flush_typing_buf] ([call] runs it), a [step] is a call that returns
    (a panic ends the program), and the states [reachable] from
    [GapBuffer::from(s)] are those a program reaches by a sequence of
    steps.  Which calls the client makes is a parameter, [allowed].

    The invariant, proved by rule induction ([reachable_ind]) from one
    preservation lemma per method: when every call respects its guard
    ([guard]: a forward deletion or a right move stays inside the text, a
    flush leaves the window end inside the new document, and the
    allocation the call may make succeeds), every reachable state is
    well-formed, so converting it to a [String] and [len()] never panic.
    The guards cannot be dropped: [Editing.delete_forward_at_end_panics],
    [Editing.delete_to_end_then_flush] and
    [Motion.type_then_right_duplicates] break each of them. *)

From stdpp Require Import base list relations.
From Stdlib Require Import ZArith Lia.
From S2P Require Import Prelude RustStd GapBuffer Editing Motion.

Open Scope gb_scope.

Module Reach.
Import GapBuffer Editing Motion.

(** ** Calls *)

(** A call of a method of [impl GapBuffer] that takes [&mut self]; [len],
    [is_empty] and the conversion to a [String] do not change the state. *)
Inductive Call :=
  | MoveCursorTo (i : N)
  | MoveCursor (n : Z)
  | InsertAtCursor (s : RString)
  | Delete (n : Z)
  | FlushTypingBuf.

Definition call (c : Call) (b : GapBuffer) : Panic GapBuffer :=
  match c with
  | MoveCursorTo i => move_cursor_to i b
  | MoveCursor n => move_cursor n b
  | InsertAtCursor s => ok (insert_at_cursor s b)
  | Delete n => delete n b
  | FlushTypingBuf => flush_typing_buf b
  end.

(** Runs a sequence of calls, each checked by [allowedb] first. *)
Fixpoint run (allowedb : Call -> GapBuffer -> bool) (cs : list Call) (b : GapBuffer)
    : Panic GapBuffer :=
  match cs with
  | [] => ok b
  | c :: cs' => if allowedb c b then let? b' := call c b in run allowedb cs' b' else panic
  end.

(** ** Steps and reachable states *)

Section Steps.
Variable allowed : Call -> GapBuffer -> Prop.

Inductive step : relation GapBuffer :=
  | step_call c b b' : allowed c b -> call c b = ok b' -> step b b'.

Definition reachable (s : RString) (b : GapBuffer) : Prop :=
  rtc step (from_string s) b.

(** Rule induction on the steps from [from_string s]. *)
Lemma reachable_ind (I : GapBuffer -> Prop) s :
  I (from_string s) ->
  (forall c b b', I b -> allowed c b -> call c b = ok b' -> I b') ->
  forall b, reachable s b -> I b.
Proof.
  intros H0 Hstep. apply (rtc_ind_r I (from_string s)); [done |].
  intros b1 b2 _ Hs Hb1. destruct Hs as [c b1 b2 Ha Hc]. eauto.
Qed.

(** A run whose checks imply [allowed] is a sequence of steps. *)
Lemma run_rtc allowedb cs b b' :
  (forall c b, allowedb c b = true -> allowed c b) ->
  run allowedb cs b = ok b' -> rtc step b b'.
Proof.
  intros Hsound. revert b. induction cs as [| c cs IH]; intros b H; simpl in H.
  { injection H as <-. done. }
  destruct (allowedb c b) eqn:Ha; [| done].
  destruct (call c b) as [b1 |] eqn:Hc; [| done].
  eapply rtc_l; [by econstructor; [apply Hsound |] | by apply IH].
Qed.
End Steps.

(** ** Invariant: calls within their guards keep the buffer well-formed *)

(** How many characters a call may add to the two deques: the string it
    types, and one per left step (the write-back [push_front] at index 0). *)
Definition growth (c : Call) (b : GapBuffer) : Z :=
  match c with
  | MoveCursorTo i => Z.max 0 (Z.of_nat (cursor b) - Z.of_N i)
  | MoveCursor n => if (n <? 0)%Z then (- n)%Z else 0
  | InsertAtCursor t => Z.of_nat (length t)
  | Delete _ | FlushTypingBuf => 0
  end.

(** The guard of a call: what it may allocate fits in memory, and a right
    move, a forward deletion or a flush stays inside the text. *)
Definition guard (c : Call) (b : GapBuffer) : bool :=
  (4 * (Z.of_nat (size b) + growth c b) <=? isize_max)%Z &&
  match c with
  | MoveCursorTo i => (i <=? N.of_nat (length (text b)))%N
  | MoveCursor n =>
      (n <? 0)%Z || (Z.of_nat (typing_buf_end b) + n <=? Z.of_nat (length (document b)))%Z
  | InsertAtCursor _ => true
  | Delete n => (n <? 0)%Z || (typing_buf_end b <? length (document b))
  | FlushTypingBuf => typing_buf_end b <=? length (text b)
  end.

Definition guarded (c : Call) (b : GapBuffer) : Prop := guard c b = true.

Definition safe (b : GapBuffer) : Prop := wf b /\ fits (size b).

Lemma safe_fits b : safe b -> fits (length (document b)) /\ fits (length (typing_buf b)).
Proof. unfold safe, size. intros [_ H]. split; gb_arith. Qed.

Lemma move_cursor_isize_min b : move_cursor isize_min b = panic.
Proof. reflexivity. Qed.

Lemma delete_isize_min b : delete isize_min b = panic.
Proof. reflexivity. Qed.

Lemma move_cursor_safe n b b' :
  safe b -> (n < 0 \/ Z.of_nat (typing_buf_end b) + n <= Z.of_nat (length (document b)))%Z ->
  (4 * (Z.of_nat (size b) + (if (n <? 0)%Z then (- n)%Z else 0)) <= isize_max)%Z ->
  move_cursor n b = ok b' -> safe b'.
Proof.
  intros Hs Hn Hg H. pose proof (safe_fits b Hs) as [Hd _]. destruct Hs as [Hwf Hsz].
  destruct (decide (n = isize_min)) as [-> | Hmin]; [by rewrite move_cursor_isize_min in H |].
  destruct (Z.ltb_spec n 0) as [Hneg | Hpos].
  - rewrite move_cursor_neg in H by done.
    destruct (move_left_loop_wf _ b b' Hwf H) as [Hwf' Hsz']. split; [done | gb_arith].
  - rewrite move_cursor_nonneg in H by done.
    destruct (move_right_loop_shift (Z.to_nat n) b) as (b2 & Hrun & Hsh); [done | lia | done |].
    rewrite Hrun in H. injection H as <-.
    split; [apply (shifted_wf (Z.to_nat n) b); [done | done | lia] |].
    destruct Hsh as (HL & _ & _ & Hl & _). unfold size. by rewrite HL, Hl.
Qed.

Lemma delete_safe n b b' :
  safe b -> (n < 0)%Z \/ typing_buf_end b < length (document b) ->
  delete n b = ok b' -> safe b'.
Proof.
  intros Hs Hn H. pose proof (safe_fits b Hs) as [Hd _]. destruct Hs as [Hwf Hsz].
  destruct (decide (n = isize_min)) as [-> | Hmin]; [by rewrite delete_isize_min in H |].
  destruct (Z.ltb_spec n 0) as [Hneg | Hpos].
  - rewrite delete_neg in H by done.
    destruct (delete_back_loop (Z.to_nat (- n)) b Hwf) as (b2 & Hrun & Hwf2 & _ & _ & HD & Hl).
    rewrite Hrun in H. injection H as <-. split; [done |].
    unfold size in *. rewrite HD. gb_arith.
  - destruct Hn as [| He]; [lia |].
    rewrite delete_nonneg, delete_fwd_loop in H by done. injection H as <-.
    unfold safe, wf, size in *; simpl. split; [lia | done].
Qed.

Lemma call_safe c b b' : safe b -> guarded c b -> call c b = ok b' -> safe b'.
Proof.
  intros Hs Hg H. unfold guarded, guard in Hg. apply andb_true_iff in Hg as [Hmem Hc].
  apply Z.leb_le in Hmem. pose proof (safe_fits b Hs) as [Hd Hb].
  pose proof Hs as [Hwf Hsz]. pose proof (length_text b) as Ht.
  unfold wf in Hwf. destruct c as [i | n | t | n |]; simpl in H, Hmem, Hc.
  - apply N.leb_le in Hc. rewrite Ht in Hc by lia.
    rewrite move_cursor_to_delta in H by (unfold size, fits, cursor in *; (done || lia)).
    apply (move_cursor_safe (Z.of_N i - Z.of_nat (cursor b)) b); [done | | | done].
    + unfold cursor in *. lia.
    + destruct (Z.ltb_spec (Z.of_N i - Z.of_nat (cursor b)) 0); lia.
  - apply (move_cursor_safe n b); [done | | done | done].
    apply orb_true_iff in Hc as [Hc | Hc]; [left; by apply Z.ltb_lt | right; by apply Z.leb_le].
  - injection H as <-. unfold safe, size in *; simpl. rewrite length_app. split; [done | gb_arith].
  - apply (delete_safe n b); [done | | done].
    apply orb_true_iff in Hc as [Hc | Hc]; [left; by apply Z.ltb_lt | right; by apply Nat.ltb_lt].
  - apply Nat.leb_le in Hc. unfold flush_typing_buf in H.
    rewrite VecDeque.range_prefix, VecDeque.range_from_ok in H by lia. injection H as <-.
    fold (text b) in *. unfold safe, wf, size in *; simpl. split; [lia |].
    rewrite Ht by lia. unfold cursor. gb_arith.
Qed.

(** [C2] Whatever calls a program makes within their guards, starting
    from [GapBuffer::from(s)] on an ASCII string [s], every state it
    reaches is well-formed: converting it to a [String] and [len()] never
    panic, and both give its text. *)
Theorem reachable_guarded_safe s b :
  Forall (fun c => is_ascii c = true) s -> fits (length s) ->
  reachable guarded s b ->
  wf b /\ into_string b = ok (text b) /\ len b = ok (length (text b)).
Proof.
  intros Ha Hf Hr.
  assert (Hs : safe b).
  { apply (reachable_ind guarded safe s); [| | done].
    - rewrite from_string_closed_at by done. unfold safe, wf, size; simpl. split; [lia | gb_arith].
    - intros c b1 b2 Hs1 Hg. by apply call_safe. }
  pose proof (safe_fits b Hs) as [Hd Hb]. destruct Hs as [Hwf _].
  split_and!; [done | apply into_string_ok | apply len_spec]; unfold wf in Hwf; (done || lia).
Qed.

End Reach.
