(* ===== verification/Editor.v ===== *)
(** * The abstract editor: what an edit buffer promises

    The contract of spec section 4, independent of any representation: a
    text and a cursor in it.  Moving clamps to the text, inserting puts
    text at the cursor and moves the cursor after it, backward deletion
    removes the characters before the cursor, forward deletion those after
    it, and flushing changes neither.  [Refinement] relates
    [GapBuffer.GapBuffer] to this model. *)

From stdpp Require Import base list.
From Stdlib Require Import ZArith Lia.
From S2P Require Import Prelude RustStd.

Open Scope gb_scope.

Module Editor.

Record Editor := mkEditor { text : list char; cursor : nat }.

Definition wf (ed : Editor) : Prop := cursor ed <= length (text ed).

(** A buffer built from a string has its cursor at the end. *)
Definition init (s : RString) : Editor := mkEditor s (length s).

Definition move_to (i : nat) (ed : Editor) : Editor :=
  mkEditor (text ed) (Nat.min i (length (text ed))).

Definition move (n : Z) (ed : Editor) : Editor :=
  mkEditor (text ed)
    (Z.to_nat (Z.max 0 (Z.min (Z.of_nat (cursor ed) + n) (Z.of_nat (length (text ed)))))).

Definition insert (t : RString) (ed : Editor) : Editor :=
  mkEditor (take (cursor ed) (text ed) ++ t ++ drop (cursor ed) (text ed))
    (cursor ed + length t).

(** [delete n]: [|n|] characters before the cursor when [n < 0], [n]
    characters after it otherwise, as many as there are. *)
Definition delete (n : Z) (ed : Editor) : Editor :=
  if (n <? 0)%Z then
    let k := Z.to_nat (- n) in
    mkEditor (take (cursor ed - k) (text ed) ++ drop (cursor ed) (text ed)) (cursor ed - k)
  else
    mkEditor (take (cursor ed) (text ed) ++ drop (cursor ed + Z.to_nat n) (text ed))
      (cursor ed).

Definition flush (ed : Editor) : Editor := ed.

Definition len (ed : Editor) : nat := length (text ed).

Definition is_empty (ed : Editor) : bool := bool_decide (text ed = []).

(** ** The operations keep the cursor inside the text *)

Lemma init_wf s : wf (init s).
Proof. unfold wf, init; simpl. lia. Qed.

Lemma move_to_wf i ed : wf (move_to i ed).
Proof. unfold wf, move_to; simpl. lia. Qed.

Lemma move_wf n ed : wf (move n ed).
Proof. unfold wf, move; simpl. lia. Qed.

Lemma insert_wf t ed : wf ed -> wf (insert t ed).
Proof.
  unfold wf, insert; simpl. intros H.
  rewrite !length_app, length_take, length_drop. lia.
Qed.

Lemma delete_wf n ed : wf ed -> wf (delete n ed).
Proof.
  unfold wf, delete. intros H.
  destruct (Z.ltb_spec n 0); simpl; rewrite length_app, length_take, length_drop; lia.
Qed.

Lemma length_insert_text t ed :
  wf ed -> length (text (insert t ed)) = length (text ed) + length t.
Proof.
  unfold wf, insert; simpl. intros H.
  rewrite !length_app, length_take, length_drop. lia.
Qed.

#[export] Hint Resolve init_wf move_to_wf move_wf insert_wf delete_wf : gb.

End Editor.
