(* ===== verification/Interface.v ===== *)
(** * The interface between an edit buffer and its client

    [EditBuffer] is the public API of the crate as a client (an editor's
    input layer) sees it, over any representation [B]; [EditBufferLaws]
    is the part of the contract of [Editor] that a representation
    implements, through a relation [R] between representation states and
    abstract editors.  The laws are those the code of [GapBuffer]
    satisfies ([Refinement] discharges them): typing, backspace, forward
    deletion and rightward moves inside the text, [len] and the
    conversions.  Leftward moves are not among them (see the last sections of [Motion]).

    The client section proves, against the interface alone, that a
    session of such commands runs without panicking and ends in a state
    related to the abstract editor's ([session_sim]);
    [Refinement.gap_buffer_session] instantiates it for the crate. *)

From stdpp Require Import base list.
From Stdlib Require Import ZArith Lia.
From S2P Require Import Prelude RustStd Editor.

Open Scope gb_scope.

Class EditBuffer (B : Type) := {
  eb_from : RString -> B;
  eb_into : B -> Panic RString;
  eb_insert : RString -> B -> B;
  eb_delete : Z -> B -> Panic B;
  eb_move_cursor : Z -> B -> Panic B;
  eb_move_cursor_to : N -> B -> Panic B;
  eb_len : B -> Panic nat;
}.

Class EditBufferLaws (B : Type) `{EditBuffer B} (R : B -> Editor.Editor -> Prop) := {
  law_wf b ed : R b ed -> Editor.wf ed;
  law_from s :
    Forall (fun c => is_ascii c = true) s -> fits (length s) ->
    R (eb_from s) (Editor.init s);
  law_into b ed : R b ed -> eb_into b = ok (Editor.text ed);
  law_len b ed : R b ed -> eb_len b = ok (Editor.len ed);
  law_insert t b ed :
    R b ed -> fits (Editor.len ed + length t) ->
    R (eb_insert t b) (Editor.insert t ed);
  law_backspace n b ed :
    R b ed -> (n < 0)%Z -> n <> isize_min ->
    exists b', eb_delete n b = ok b' /\ R b' (Editor.delete n ed);
  law_delete_forward n b ed :
    R b ed -> (0 <= n)%Z -> Editor.cursor ed < Editor.len ed ->
    exists b', eb_delete n b = ok b' /\ R b' (Editor.delete n ed);
  law_move_right n b ed :
    R b ed -> (0 <= n)%Z ->
    (Z.of_nat (Editor.cursor ed) + n <= Z.of_nat (Editor.len ed))%Z ->
    exists b', eb_move_cursor n b = ok b' /\ R b' (Editor.move n ed);
  law_move_to_right i b ed :
    R b ed -> Editor.cursor ed <= N.to_nat i <= Editor.len ed ->
    exists b', eb_move_cursor_to i b = ok b' /\ R b' (Editor.move_to (N.to_nat i) ed);
}.

(** ** A client: an editing session *)

Module Session.

(** One call of the public API. *)
Inductive Cmd :=
  | CInsert (t : RString)
  | CDelete (n : Z)
  | CMove (n : Z)
  | CMoveTo (i : N).

Definition run_cmd {B} `{EditBuffer B} (c : Cmd) (b : B) : Panic B :=
  match c with
  | CInsert t => ok (eb_insert t b)
  | CDelete n => eb_delete n b
  | CMove n => eb_move_cursor n b
  | CMoveTo i => eb_move_cursor_to i b
  end.

Fixpoint run {B} `{EditBuffer B} (cs : list Cmd) (b : B) : Panic B :=
  match cs with
  | [] => ok b
  | c :: cs' => let? b' := run_cmd c b in run cs' b'
  end.

Definition spec_cmd (c : Cmd) (ed : Editor.Editor) : Editor.Editor :=
  match c with
  | CInsert t => Editor.insert t ed
  | CDelete n => Editor.delete n ed
  | CMove n => Editor.move n ed
  | CMoveTo i => Editor.move_to (N.to_nat i) ed
  end.

Fixpoint spec_run (cs : list Cmd) (ed : Editor.Editor) : Editor.Editor :=
  match cs with
  | [] => ed
  | c :: cs' => spec_run cs' (spec_cmd c ed)
  end.

(** The commands covered by the laws, decided on the abstract state. *)
Definition cmd_ok (c : Cmd) (ed : Editor.Editor) : bool :=
  match c with
  | CInsert t => (4 * Z.of_nat (Editor.len ed + length t) <=? isize_max)%Z
  | CDelete n =>
      if (n <? 0)%Z then negb (n =? isize_min)%Z
      else Editor.cursor ed <? Editor.len ed
  | CMove n =>
      (0 <=? n)%Z && (Z.of_nat (Editor.cursor ed) + n <=? Z.of_nat (Editor.len ed))%Z
  | CMoveTo i => (Editor.cursor ed <=? N.to_nat i) && (N.to_nat i <=? Editor.len ed)
  end.

Fixpoint session_ok (cs : list Cmd) (ed : Editor.Editor) : bool :=
  match cs with
  | [] => true
  | c :: cs' => cmd_ok c ed && session_ok cs' (spec_cmd c ed)
  end.

Section Client.
Context {B : Type} `{EditBuffer B} (R : B -> Editor.Editor -> Prop).
Context `{!EditBufferLaws B R}.

Lemma run_cmd_refines c b ed :
  R b ed -> cmd_ok c ed = true ->
  exists b', run_cmd c b = ok b' /\ R b' (spec_cmd c ed).
Proof.
  intros HR Hok. destruct c as [t | n | n | i]; simpl in *.
  - eexists; split; [done |]. apply law_insert; [done |].
    unfold fits. by apply Z.leb_le.
  - destruct (Z.ltb_spec n 0).
    + apply law_backspace; [done | done |]. by apply negb_true_iff, Z.eqb_neq in Hok.
    + apply law_delete_forward; [done | done |]. by apply Nat.ltb_lt.
  - apply andb_true_iff in Hok as [H1 H2].
    apply law_move_right; [done | by apply Z.leb_le | by apply Z.leb_le].
  - apply andb_true_iff in Hok as [H1 H2].
    apply law_move_to_right; [done |]. split; by apply Nat.leb_le.
Qed.

Lemma session_sim cs b ed :
  R b ed -> session_ok cs ed = true ->
  exists b', run cs b = ok b' /\ R b' (spec_run cs ed).
Proof.
  revert b ed. induction cs as [| c cs IH]; intros b ed HR Hok; simpl in *.
  { by exists b. }
  apply andb_true_iff in Hok as [Hc Hcs].
  destruct (run_cmd_refines c b ed HR Hc) as [b1 [-> HR1]].
  by apply IH.
Qed.

End Client.

End Session.
