(* ===== verification/Refinement.v ===== *)
(** * [GapBuffer] refines the abstract editor

    The refinement relation [refines b ed]: [b] is well-formed, its two
    deques have lengths a live allocation can have, and its text and cursor
    are those of [ed].  The [EditBuffer] instance is the crate's public
    API; [gap_buffer_laws] discharges [EditBufferLaws] from the lemmas of
    [Motion] and [Editing], so the client theorems of [Interface.Session]
    hold of the crate.  The section on closed windows adds what the laws
    leave out: from a buffer with nothing pending (a fresh one), moving the
    cursor anywhere, left included, refines [Editor.move_to]. *)

From stdpp Require Import base list.
From Stdlib Require Import ZArith Lia.
From S2P Require Import Prelude RustStd GapBuffer Editing Motion Editor Interface.

Open Scope gb_scope.

Module Refinement.
Import GapBuffer Motion Editing.

Definition refines (b : GapBuffer) (ed : Editor.Editor) : Prop :=
  wf b /\ fits (length (document b)) /\ fits (length (typing_buf b)) /\
  text b = Editor.text ed /\ cursor b = Editor.cursor ed.

#[export] Instance gap_buffer_api : EditBuffer GapBuffer := {
  eb_from := from_string;
  eb_into := into_string;
  eb_insert := insert_at_cursor;
  eb_delete := delete;
  eb_move_cursor := move_cursor;
  eb_move_cursor_to := move_cursor_to;
  eb_len := len;
}.

(** The abstract view of a well-formed gap buffer. *)
Definition abs (b : GapBuffer) : Editor.Editor := Editor.mkEditor (text b) (cursor b).

Lemma refines_abs b ed : refines b ed -> ed = abs b.
Proof. destruct ed. unfold refines, abs. intros. destruct_and!. simpl in *. by subst. Qed.

Ltac refines_inv :=
  repeat match goal with
  | H : refines ?b ?ed |- _ =>
      pose proof (refines_abs b ed H); subst ed; destruct H as (? & ? & ? & _ & _)
  end.

(** ** The laws, one lemma each *)

Lemma refines_from s :
  Forall (fun c => is_ascii c = true) s -> fits (length s) ->
  refines (from_string s) (Editor.init s).
Proof.
  intros Ha Hf. unfold refines, from_string, wf, text, cursor; simpl.
  rewrite string_len_ascii by done. rewrite firstn_all, skipn_all, app_nil_r.
  split_and!; [lia | lia | done | gb_arith | done | lia].
Qed.

Lemma refines_insert t b ed :
  refines b ed -> fits (Editor.len ed + length t) ->
  refines (insert_at_cursor t b) (Editor.insert t ed).
Proof.
  intros HR Hf. refines_inv. unfold Editor.len, abs in Hf; simpl in Hf.
  assert (Hs : typing_buf_start b <= length (document b)) by (unfold wf in *; lia).
  destruct (insert_at_cursor_spec t b Hs) as [Ht Hc].
  pose proof (length_text b Hs). unfold refines; simpl.
  split_and!; [done | done | | done | done].
  rewrite length_app. unfold fits, cursor in *. lia.
Qed.

Lemma refines_backspace n b ed :
  refines b ed -> (n < 0)%Z -> n <> isize_min ->
  exists b', delete n b = ok b' /\ refines b' (Editor.delete n ed).
Proof.
  intros HR Hn Hmin. refines_inv.
  rewrite delete_neg by done.
  destruct (delete_back_loop (Z.to_nat (- n)) b) as (b' & Hrun & Hwf' & Ht & Hc & Hd & Hl); [done |].
  exists b'. split; [done |]. unfold refines, Editor.delete.
  rewrite (proj2 (Z.ltb_lt n 0) Hn); simpl.
  split_and!; [done | by rewrite Hd | unfold fits in *; lia | done | done].
Qed.

Lemma refines_delete_forward n b ed :
  refines b ed -> (0 <= n)%Z -> Editor.cursor ed < Editor.len ed ->
  exists b', delete n b = ok b' /\ refines b' (Editor.delete n ed).
Proof.
  intros HR Hn Hc. refines_inv. unfold Editor.len, abs in Hc; simpl in Hc.
  assert (He : typing_buf_end b < length (document b)).
  { rewrite length_text in Hc by (unfold wf in *; lia). lia. }
  rewrite delete_nonneg, delete_fwd_loop by done. eexists; split; [done |].
  unfold refines, Editor.delete, abs.
  rewrite (proj2 (Z.ltb_ge n 0) Hn); simpl.
  rewrite delete_fwd_text by done.
  unfold wf, cursor in *; simpl. split_and!; [lia | lia | done | done | done | done].
Qed.

Lemma refines_move_right n b ed :
  refines b ed -> (0 <= n)%Z ->
  (Z.of_nat (Editor.cursor ed) + n <= Z.of_nat (Editor.len ed))%Z ->
  exists b', move_cursor n b = ok b' /\ refines b' (Editor.move n ed).
Proof.
  intros HR Hn Hle. refines_inv. unfold Editor.len, abs in Hle; simpl in Hle.
  rewrite length_text in Hle by (unfold wf in *; lia).
  rewrite move_cursor_nonneg by done.
  destruct (move_right_loop_shift (Z.to_nat n) b) as [b' [Hrun Hs]]; [done | unfold wf in *; lia | done |].
  exists b'. split; [done |].
  pose proof (shifted_cursor _ _ _ Hs) as Hc.
  assert (Hwf' : wf b') by (apply (shifted_wf (Z.to_nat n) b); [done | done | unfold wf in *; lia]).
  destruct Hs as (HL & _ & He & Hb & Ht).
  unfold refines, Editor.move, abs; simpl. rewrite length_text by (unfold wf in *; lia).
  split_and!; [done | by rewrite HL | by rewrite Hb | done | unfold wf in *; lia].
Qed.

Lemma refines_move_to_right i b ed :
  refines b ed -> Editor.cursor ed <= N.to_nat i <= Editor.len ed ->
  exists b', move_cursor_to i b = ok b' /\ refines b' (Editor.move_to (N.to_nat i) ed).
Proof.
  intros HR Hi. pose proof HR as HR0. refines_inv.
  unfold Editor.len, abs in Hi; simpl in Hi.
  assert (Hi' : (Z.of_N i <= isize_max)%Z).
  { rewrite length_text in Hi by (unfold wf in *; lia).
    unfold wf, fits, cursor, isize_max in *. lia. }
  rewrite move_cursor_to_delta by (done || (unfold wf in *; lia)).
  destruct (refines_move_right (Z.of_N i - Z.of_nat (cursor b)) b (abs b)) as [b' [Hrun HR']];
    [done | lia | unfold Editor.len, abs; simpl; lia |].
  exists b'. split; [done |]. replace (Editor.move_to (N.to_nat i) (abs b))
    with (Editor.move (Z.of_N i - Z.of_nat (cursor b)) (abs b)); [done |].
  unfold Editor.move, Editor.move_to, abs; simpl. f_equal. lia.
Qed.

Lemma refines_len b ed : refines b ed -> len b = ok (Editor.len ed).
Proof. intros HR. refines_inv. unfold wf in *. apply len_spec; (done || lia). Qed.

Lemma refines_into b ed : refines b ed -> into_string b = ok (Editor.text ed).
Proof. intros HR. refines_inv. unfold wf in *. apply into_string_ok; lia. Qed.

Lemma refines_wf b ed : refines b ed -> Editor.wf ed.
Proof. intros HR. refines_inv. unfold Editor.wf, abs; simpl. by apply cursor_le_text. Qed.

#[export] Instance gap_buffer_laws : EditBufferLaws GapBuffer refines.
Proof.
  split.
  - exact refines_wf.
  - exact refines_from.
  - exact refines_into.
  - exact refines_len.
  - exact refines_insert.
  - exact refines_backspace.
  - exact refines_delete_forward.
  - exact refines_move_right.
  - exact refines_move_to_right.
Qed.

(** ** The crate as the client sees it *)

(** [C1] A session of typing, backspacing, forward deletion and rightward
    moves on a buffer built from an ASCII string runs without panicking,
    ends in a buffer that refines the abstract editor after the same
    session, and converting it to a [String] gives that editor's text. *)
Theorem gap_buffer_session (s : RString) cs :
  Forall (fun c => is_ascii c = true) s -> fits (length s) ->
  Session.session_ok cs (Editor.init s) = true ->
  exists b', Session.run cs (from_string s) = ok b' /\
    refines b' (Session.spec_run cs (Editor.init s)) /\
    into_string b' = ok (Editor.text (Session.spec_run cs (Editor.init s))).
Proof.
  intros Ha Hf Hok.
  destruct (Session.session_sim refines cs (from_string s) (Editor.init s)
              (refines_from s Ha Hf) Hok) as [b' [Hrun HR]].
  exists b'. split_and!; [done | done | by apply refines_into].
Qed.

(** ** Closed windows: moves in both directions *)

Lemma refines_closed_at doc c :
  c <= length doc -> fits (length doc) ->
  refines (closed_at doc c) (Editor.mkEditor doc c).
Proof.
  intros Hc Hf. unfold refines, wf, cursor; simpl.
  rewrite text_closed_at by done. split_and!; simpl; [lia | lia | done | gb_arith | done | lia].
Qed.

(** [C11] On a buffer with a closed window (one just built from a
    string, for instance), [move_cursor_to i] refines [Editor.move_to i]
    in both directions, for every [i] up to [isize::MAX]. *)
Theorem closed_move_to_refines (i : N) doc c :
  c <= length doc -> fits (length doc) -> (Z.of_N i <= isize_max)%Z ->
  exists b', move_cursor_to i (closed_at doc c) = ok b' /\
    refines b' (Editor.move_to (N.to_nat i) (Editor.mkEditor doc c)) /\
    typing_buf b' = [].
Proof.
  intros Hc Hf Hi. rewrite Motion.move_cursor_to_closed by done.
  eexists; split_and!; [done | | done].
  unfold Editor.move_to; simpl. apply refines_closed_at; [lia | done].
Qed.

End Refinement.
