(* ===== verification/Tests.v ===== *)
(** * The repository's unit tests, replayed on the model

    The module [sweet] of [src/src/lib.rs] (lines 128-214) has eight
    tests, each a function that panics when it fails.  Each is translated
    here as a computation of the panic monad, [ok tt] when the test
    passes: [GapBuffer::from(String::from(..))] is [from_string (lit ..)],
    [String::from(rs)] is [into_string], [assert_eq!] is
    [RustStd.assert_eq] and [strip_suffix('.').unwrap()] is
    [RustStd.strip_suffix] followed by [RustStd.unwrap].  Replaying them
    checks the model against the crate: the first seven pass, the eighth,
    [scroll_past_start], panics, as on the crate
    ([Motion.scroll_past_start_duplicates] proves what the code does there
    for every string). *)

From stdpp Require Import base list.
From Stdlib Require Import ZArith Lia.
From Stdlib Require Strings.String Strings.Ascii.
From S2P Require Import Prelude RustStd GapBuffer Editing Motion.
Import String.StringSyntax Ascii.

Open Scope gb_scope.

Module Tests.
Import GapBuffer Editing Motion.

(** ** The tests of [mod sweet] *)

Definition from_string_and_len : Panic unit :=
  let rs := from_string (lit "Able doesn't pay me.") in
  let? got := into_string rs in
  assert_eq (lit "Able doesn't pay me.") got.

Definition delete_leftward : Panic unit :=
  let rs := from_string (lit "Able doesn't pay me.") in
  let? rs := delete (-1) rs in
  let? expected := unwrap (strip_suffix (lit "Able doesn't pay me.") (chr "."%char)) in
  let? got := into_string rs in
  assert_eq expected got.

Definition scroll : Panic unit :=
  let rs := from_string (lit "Able doesn't pay me.") in
  let? rs := move_cursor_to 0 rs in
  let? got := into_string rs in
  assert_eq (lit "Able doesn't pay me.") got.

Definition scroll_beyond_tm : Panic unit :=
  let rs := from_string (lit "Able doesn't pay me.") in
  let? rs := move_cursor_to 21 rs in
  let? got := into_string rs in
  assert_eq (lit "Able doesn't pay me.") got.

Definition scroll_and_delete : Panic unit :=
  let rs := from_string (lit "Able doesn't pay me.") in
  let? rs := move_cursor_to 10 rs in
  let? rs := delete 1 rs in
  let? got := into_string rs in
  assert_eq (lit "Able doesnt pay me.") got.

Definition scroll_and_put : Panic unit :=
  let rs := from_string (lit "Able doesn't pay me.") in
  let? rs := move_cursor_to 10 rs in
  let? rs := delete 1 rs in
  let rs := insert_at_cursor (lit "'") rs in
  let? rs := move_cursor_to 19 rs in
  let rs := insert_at_cursor (lit "n") rs in
  let? got := into_string rs in
  assert_eq (lit "Able doesn't pay men.") got.

Definition type_and_flush : Panic unit :=
  let rs := from_string (lit "Able doesn't pay me.") in
  let? rs := delete (-1) rs in
  let rs := insert_at_cursor (lit ", and yet I work for him.") rs in
  let? rs := flush_typing_buf rs in
  let? got := into_string rs in
  assert_eq (lit "Able doesn't pay me, and yet I work for him.") got.

Definition scroll_past_start : Panic unit :=
  let rs := from_string (lit "Able doesn't pay me, and yet I work for him.") in
  let? rs := move_cursor_to 0 rs in
  let? rs := move_cursor (-1) rs in
  let? got := into_string rs in
  assert_eq (lit "Able doesn't pay me, and yet I work for him.") got.

(** ** Their outcome *)

(** The model agrees with the crate on the repository's tests: the first
    seven return, [scroll_past_start] panics, its buffer converting to the
    text with its first character doubled (the general statement is
    [Motion.scroll_past_start_duplicates]). *)
Example tests_replayed :
  from_string_and_len = ok tt /\ delete_leftward = ok tt /\ scroll = ok tt /\
  scroll_beyond_tm = ok tt /\ scroll_and_delete = ok tt /\
  scroll_and_put = ok tt /\ type_and_flush = ok tt /\ scroll_past_start = panic.
Proof. vm_compute. repeat split. Qed.

End Tests.
