(* ===== verification/Witnesses.v ===== *)
(** * The main theorems at concrete inputs

    Each lemma below applies one theorem of the development to a concrete
    buffer, most built from the repository's test string ["Able doesn't
    pay me."], and discharges its hypotheses by evaluation.  This shows
    the hypotheses can be met. *)

From stdpp Require Import base list.
From Stdlib Require Import ZArith Lia.
From Stdlib Require Strings.String.
From S2P Require Import Prelude RustStd GapBuffer Editing Motion Reach Editor Interface Refinement.
Import String.StringSyntax.

Open Scope gb_scope.

Module Witnesses.
Import GapBuffer Editing Motion Reach Refinement Session.

(** Discharge a hypothesis about a concrete input. *)
Ltac concrete :=
  first
    [ reflexivity
    | (apply forallb_ascii; vm_compute; reflexivity)
    | (unfold fits; apply Z.leb_le; vm_compute; reflexivity)
    | (apply Z.leb_le; vm_compute; reflexivity)
    | (unfold wf; vm_compute; lia)
    | (unfold isize_min; lia)
    | (unfold isize_max; lia)
    | lia
    | discriminate ].

Definition s0 : RString := lit "Able doesn't pay me.".

(** The buffer after [move_cursor_to(10)] and [delete(1)] on [s0]. *)
Definition b1 : GapBuffer := mkGapBuffer s0 [] 10 11.

Definition cs0 : list Cmd :=
  [CDelete (-1); CInsert (lit "!"); CDelete (-1); CInsert (lit "."); CMove 0].

Lemma gap_buffer_session_witness :
  session_ok cs0 (Editor.init s0) = true /\
  exists b', run cs0 (from_string s0) = ok b' /\
    refines b' (spec_run cs0 (Editor.init s0)) /\
    into_string b' = ok (Editor.text (spec_run cs0 (Editor.init s0))).
Proof. split; [concrete | apply gap_buffer_session; concrete]. Defined.

Lemma from_into_roundtrip_witness : into_string (from_string s0) = ok s0.
Proof. apply from_into_roundtrip. concrete. Defined.

Lemma from_into_non_ascii_panics_witness :
  into_string (from_string [104%Z; 233%Z]) = panic.
Proof.
  apply (from_into_non_ascii_panics _ 233%Z); [| concrete].
  apply list_elem_of_In. simpl. auto.
Defined.

Lemma scroll_past_start_duplicates_witness :
  (let? b := move_cursor_to 0 (from_string (65%Z :: lit "ble")) in
   let? b := move_cursor (-1) b in
   into_string b) = ok (65%Z :: 65%Z :: lit "ble").
Proof. apply scroll_past_start_duplicates; concrete. Defined.

Lemma insert_at_cursor_into_witness :
  into_string b1 = ok (lit "Able doesnt pay me.") /\
  into_string (insert_at_cursor (lit "'") b1) =
    ok (take (cursor b1) (lit "Able doesnt pay me.") ++ lit "'" ++
        drop (cursor b1) (lit "Able doesnt pay me.")) /\
  cursor (insert_at_cursor (lit "'") b1) = cursor b1 + length (lit "'").
Proof.
  assert (H : into_string b1 = ok (lit "Able doesnt pay me.")) by (vm_compute; reflexivity).
  split; [exact H | exact (insert_at_cursor_into _ _ _ H)].
Defined.

Lemma delete_backward_spec_witness :
  wf b1 /\
  exists b', delete (-3) b1 = ok b' /\ wf b' /\
    text b' = take (cursor b1 - Z.to_nat (- -3)) (text b1) ++ drop (cursor b1) (text b1) /\
    cursor b' = cursor b1 - Z.to_nat (- -3) /\
    document b' = document b1 /\ length (typing_buf b') <= length (typing_buf b1).
Proof. split; [concrete | apply delete_backward_spec; concrete]. Defined.

Lemma delete_forward_spec_witness :
  wf b1 /\
  exists b', delete 4 b1 = ok b' /\ wf b' /\
    text b' = take (cursor b1) (text b1) ++ drop (cursor b1 + Z.to_nat 4) (text b1) /\
    cursor b' = cursor b1 /\ document b' = document b1 /\ typing_buf b' = typing_buf b1.
Proof. split; [concrete | apply delete_forward_spec; concrete]. Defined.

Lemma move_cursor_right_spec_witness :
  exists b', move_cursor 5 b1 = ok b' /\ wf b' /\ text b' = text b1 /\
    cursor b' = cursor b1 + Z.to_nat 5 /\ length (document b') = length (document b1).
Proof. apply move_cursor_right_spec; concrete. Defined.

Lemma move_cursor_closed_witness :
  move_cursor (-4) (closed_at s0 10) =
    ok (closed_at s0 (Z.to_nat (Z.min (Z.of_nat 10 + -4) (Z.of_nat (length s0))))).
Proof. apply move_cursor_closed; concrete. Defined.

Lemma closed_move_to_refines_witness :
  exists b', move_cursor_to 3 (closed_at s0 10) = ok b' /\
    refines b' (Editor.move_to (N.to_nat 3) (Editor.mkEditor s0 10)) /\
    typing_buf b' = [].
Proof. apply closed_move_to_refines; concrete. Defined.

Lemma flush_typing_buf_spec_witness :
  flush_typing_buf b1 = ok (mkGapBuffer (text b1) [] (typing_buf_end b1) (typing_buf_end b1)).
Proof. apply flush_typing_buf_spec. concrete. Defined.

Lemma len_into_witness : len b1 = ok (length (lit "Able doesnt pay me.")).
Proof. apply len_into; [vm_compute; reflexivity | concrete | concrete]. Defined.

Lemma type_then_left_panics_witness :
  move_cursor (-1) (insert_at_cursor (lit "n") (from_string s0)) = panic.
Proof. apply type_then_left_panics; concrete. Defined.

Lemma type_then_right_duplicates_witness :
  exists b, move_cursor 1 (insert_at_cursor (110%Z :: lit ".") (from_string s0)) = ok b /\
    into_string b = ok (s0 ++ 110%Z :: lit "." ++ [110%Z]).
Proof. apply type_then_right_duplicates; concrete. Defined.

Lemma delete_forward_at_end_panics_witness :
  exists b, delete 1 (from_string s0) = ok b /\ into_string b = panic.
Proof. apply delete_forward_at_end_panics; [concrete | concrete | unfold isize_max; lia]. Defined.

Lemma move_left_step_panics_witness :
  move_left_step (insert_at_cursor (lit "n") (from_string s0)) = panic.
Proof.
  apply (move_left_step_panics (insert_at_cursor (lit "n") (from_string s0)));
    [concrete | split_and!; [reflexivity | concrete | left; discriminate]].
Defined.

Lemma move_cursor_right_returns_witness : exists b', move_cursor 30 b1 = ok b'.
Proof. apply move_cursor_right_returns; concrete. Defined.

Lemma delete_returns_witness : exists b', delete 30 b1 = ok b'.
Proof. apply delete_returns; [concrete | intros _; concrete]. Defined.

Lemma delete_to_end_then_flush_witness :
  (let? b := delete 3 (closed_at (lit "abc") 0) in
   let? b := flush_typing_buf b in into_string b) = panic <->
  cursor (closed_at (lit "abc") 0) < length (document (closed_at (lit "abc") 0)).
Proof. apply delete_to_end_then_flush; concrete. Defined.

Lemma is_empty_len_zero_witness :
  (len (mkGapBuffer (lit "a") [] 0 1) = ok 0 /\ is_empty (mkGapBuffer (lit "a") [] 0 1) = false) <->
  (typing_buf (mkGapBuffer (lit "a") [] 0 1) = [] /\
   typing_buf_start (mkGapBuffer (lit "a") [] 0 1) = 0 /\
   typing_buf_end (mkGapBuffer (lit "a") [] 0 1) =
     length (document (mkGapBuffer (lit "a") [] 0 1)) /\
   document (mkGapBuffer (lit "a") [] 0 1) <> []).
Proof. apply is_empty_len_zero; concrete. Defined.

Lemma move_to_past_isize_max_wraps_witness :
  move_cursor_to 18446744073709551615%N (closed_at (97%Z :: lit "b") 2) =
    ok (closed_at (replicate (Z.to_nat (2 ^ 64 - Z.of_N 18446744073709551615%N)) 97%Z
                   ++ 97%Z :: lit "b") 0).
Proof. apply move_to_past_isize_max_wraps; [concrete | concrete | gb_arith | gb_arith]. Defined.

Lemma right_after_delete_to_end_restores_witness :
  (let? b := delete 20 (closed_at s0 10) in
   let? b := move_cursor 1 b in
   into_string b) = ok (take (S 10) s0).
Proof. apply right_after_delete_to_end_restores; concrete. Defined.

(** ** Reachable states *)

Definition end_of (cs : list Call) (allowedb : Call -> GapBuffer -> bool) : GapBuffer :=
  match Reach.run allowedb cs (from_string s0) with Some b => b | None => from_string s0 end.

(** A program within the guards: it moves left over typed text too. *)
Definition tr_guarded : list Call :=
  [MoveCursorTo 10; Delete 1; InsertAtCursor (lit "'"); MoveCursor (-2);
   MoveCursorTo 19; InsertAtCursor (lit "n"); Delete (-1); FlushTypingBuf].

Lemma reachable_guarded_safe_witness :
  wf (end_of tr_guarded guard) /\
  into_string (end_of tr_guarded guard) = ok (text (end_of tr_guarded guard)) /\
  len (end_of tr_guarded guard) = ok (length (text (end_of tr_guarded guard))).
Proof.
  apply (reachable_guarded_safe s0); [concrete | concrete |].
  apply (run_rtc guarded guard tr_guarded); [by intros | vm_compute; reflexivity].
Defined.

End Witnesses.
